(** * BiLSTM sentiment classifier on IMDB: training and evaluation script

    A shallow embedding of [examples/classification/bilstm_imdb_scratch.ipynb].

    The notebook is a sequential script over a deep-learning framework.  The
    framework's collaborators (network kernels, loss, automatic
    differentiation, optimizer, progress bar, tokenizer) are opaque: they are
    the variables of the sections below.  What is modelled in full is the
    script itself: the data-preparation pipeline, the model assembly, the
    training and evaluation loops and the checkpointing policy.

    Scalars (losses, accuracies) are Python floats, modelled as [number]: an
    exact rational, an infinity or NaN.  The special values and the way
    arithmetic and comparisons treat them are part of the model;
    floating-point rounding is not. *)

From Stdlib Require Import QArith.
From stdpp Require Import base option list gmap strings.

(** * Python-level primitives *)

Module Py.

(** The exceptions the script can run into. *)
Inductive exn : Type :=
| ZeroDivisionError
| IndexError
| ValueError.

(** Outcome of a computation: a value, or an uncaught exception. *)
Inductive result (A : Type) : Type :=
| Ok (a : A)
| Raise (e : exn).

Arguments Ok {A} a.
Arguments Raise {A} e.

(** A Python float: a finite number, [float('inf')], [float('-inf')] or
    [float('nan')]. *)
Inductive number : Type :=
| Fin (q : Q)
| Inf
| NegInf
| NaN.

Definition Qltb (x y : Q) : bool :=
  match (x ?= y)%Q with Lt => true | _ => false end.

(** [x < y] on floats: [False] as soon as one side is NaN. *)
Definition lt_number (x y : number) : bool :=
  match x, y with
  | NaN, _ | _, NaN => false
  | _, NegInf => false
  | NegInf, _ => true
  | Inf, _ => false
  | Fin _, Inf => true
  | Fin a, Fin b => Qltb a b
  end.

(** [x + y] on floats: NaN is absorbing and the two infinities add to NaN. *)
Definition number_add (x y : number) : number :=
  match x, y with
  | NaN, _ | _, NaN => NaN
  | Inf, NegInf | NegInf, Inf => NaN
  | Inf, _ | _, Inf => Inf
  | NegInf, _ | _, NegInf => NegInf
  | Fin a, Fin b => Fin (a + b)
  end.

(** [x / n] for a positive integer [n]. *)
Definition number_div (x : number) (n : nat) : number :=
  match x with
  | Fin q => Fin (q / inject_Z (Z.of_nat n))
  | _ => x
  end.

(** [a <= b] on floats, again never with NaN. *)
Definition number_le (a b : number) : Prop :=
  match a, b with
  | NaN, _ | _, NaN => False
  | NegInf, _ => True
  | _, Inf => True
  | Fin x, Fin y => (x <= y)%Q
  | _, _ => False
  end.

(** [m] is the minimum of [float('inf')] and the floats [l], as the
    comparison [<] finds it: NaN is below nothing and nothing is below it,
    so it is never the minimum and the minimum is not measured against it. *)
Definition is_minimum (m : number) (l : list number) : Prop :=
  m <> NaN /\
  (m = Inf \/ m ∈ l) /\
  forall u, u ∈ l -> u <> NaN -> number_le m u.

(** That minimum computed, as Python's [min(float('inf'), *l)] does: an
    element replaces the candidate only when it is strictly below it. *)
Definition minimum (l : list number) : number :=
  fold_left (fun m u => if lt_number u m then u else m) l Inf.

(** Left-to-right sum, as a loop accumulates it from [0], and the mean. *)
Definition number_sum (l : list number) : number := fold_left number_add l (Fin 0).

Definition mean (l : list number) : number := number_div (number_sum l) (length l).

(** The same sum on finite numbers alone. *)
Definition Qsum (l : list Q) : Q := fold_left Qplus l 0%Q.

(** Indexing with a negative index [-k] ([k >= 1]) along the first axis. *)
Definition index_from_end {A} (k : nat) (l : list A) : result A :=
  if decide (1 <= k <= length l)
  then match l !! (length l - k) with
       | Some x => Ok x
       | None => Raise IndexError
       end
  else Raise IndexError.

End Py.

Import Py.

(** * Observable calls to the collaborators *)

Inductive Event : Type :=
| EvSetTrain (mode : bool)                     (* model.set_train(mode) *)
| EvForward (training_mode : bool)             (* model(data) *)
| EvLoss (value : number)                      (* loss_fn(logits, label) *)
| EvBackward                                   (* gradients of value_and_grad *)
| EvOptimizer                                  (* optimizer(grads) *)
| EvAccuracy (value : number)                  (* accuracy_fn(predictions, label) *)
| EvTqdmOpen (total : nat)                     (* with tqdm(total=total) as t *)
| EvTqdmDescription (epoch : nat)              (* t.set_description('Epoch %i' % epoch) *)
| EvTqdmPostfix (loss : number) (acc : option number)
                                               (* t.set_postfix(loss=..., acc=...) *)
| EvTqdmUpdate (n : nat)                       (* t.update(n) *)
| EvTqdmClose                                  (* leaving the with block *)
| EvSaveCheckpoint (path : string).            (* ms.save_checkpoint(model, path) *)

Definition is_optimizer_event (ev : Event) : bool :=
  match ev with EvOptimizer => true | _ => false end.

Definition is_save_event (ev : Event) : bool :=
  match ev with EvSaveCheckpoint _ => true | _ => false end.

(** Gradient computations and optimizer updates. *)
Definition is_update_event (ev : Event) : bool :=
  match ev with EvBackward | EvOptimizer => true | _ => false end.

(** Opening, advancing and closing the progress bar. *)
Definition is_bar_event (ev : Event) : bool :=
  match ev with EvTqdmOpen _ | EvTqdmUpdate _ | EvTqdmClose => true | _ => false end.

Definition is_forward_event (ev : Event) : bool :=
  match ev with EvForward _ => true | _ => false end.

(** The loss the progress bar shows last: that of the latest
    [set_postfix] in a trace, if there is one. *)
Definition last_reported_loss (tr : list Event) : option number :=
  fold_left (fun shown ev =>
               match ev with
               | EvTqdmPostfix loss _ => Some loss
               | _ => shown
               end) tr None.

(** * The training and evaluation orchestrators *)

Module Script.

Section Orchestration.

Context {Params OptState Seed Grads Data Label Logits : Type}.

(** [model(data)]: the logits and the advanced random state, given the
    training-mode flag, the parameters and the random state (dropout). *)
Variable net : bool -> Params -> Seed -> Data -> Logits * Seed.
(** [loss_fn = nn.CrossEntropyLoss()]. *)
Variable loss_fn : Logits -> Label -> number.
(** Gradient of [forward_fn] with respect to [optimizer.parameters]. *)
Variable backward : bool -> Params -> Seed -> Data -> Label -> Grads.
(** [optimizer = nn.Adam(model.trainable_params(), learning_rate=lr)]. *)
Variable adam : OptState -> Params -> Grads -> OptState * Params.
(** [accuracy_fn] of [mindnlp.metrics]. *)
Variable accuracy_fn : Logits -> Label -> number.
(** [label.astype(mindspore.int32)]. *)
Variable astype_int32 : Label -> Label.

(** A batched dataset: [get_dataset_size] is its number of batches and
    [create_tuple_iterator] yields them in order. *)
Definition Dataset : Type := list (Data * Label).

Definition get_dataset_size (ds : Dataset) : nat := length ds.
Definition create_tuple_iterator (ds : Dataset) : list (Data * Label) := ds.

(** The mutable objects the script shares: the model (mode flag and
    parameters, the latter shared with the optimizer), the optimizer's own
    state, the framework's random state, the files on disk and the trace of
    collaborator calls. *)
Record World : Type := mkWorld {
  training : bool;
  params : Params;
  opt_state : OptState;
  seed : Seed;
  files : gmap string Params;
  trace : list Event
}.

Definition set_training (b : bool) (w : World) : World :=
  mkWorld b (params w) (opt_state w) (seed w) (files w) (trace w).
Definition set_params (p : Params) (w : World) : World :=
  mkWorld (training w) p (opt_state w) (seed w) (files w) (trace w).
Definition set_opt_state (o : OptState) (w : World) : World :=
  mkWorld (training w) (params w) o (seed w) (files w) (trace w).
Definition set_seed (s : Seed) (w : World) : World :=
  mkWorld (training w) (params w) (opt_state w) s (files w) (trace w).
Definition set_files (f : gmap string Params) (w : World) : World :=
  mkWorld (training w) (params w) (opt_state w) (seed w) f (trace w).
Definition log (ev : Event) (w : World) : World :=
  mkWorld (training w) (params w) (opt_state w) (seed w) (files w) (trace w ++ [ev]).

(** ** A state-and-exception monad over the world *)

Definition M (A : Type) : Type := World -> result A * World.

Definition ret {A} (a : A) : M A := fun w => (Ok a, w).

Definition bind {A B} (c : M A) (k : A -> M B) : M B :=
  fun w =>
    match c w with
    | (Ok a, w') => k a w'
    | (Raise e, w') => (Raise e, w')
    end.

Definition raise {A} (e : exn) : M A := fun w => (Raise e, w).

Definition emit (ev : Event) : M unit := fun w => (Ok tt, log ev w).

(** Runs [h] after [c] whether or not [c] raised, as leaving a [with] block. *)
Definition finally {A} (c : M A) (h : M unit) : M A :=
  fun w =>
    match c w with
    | (r, w') =>
        match h w' with
        | (Ok _, w'') => (r, w'')
        | (Raise e, w'') => (Raise e, w'')
        end
    end.

Notation "'let*' x ':=' c 'in' k" := (bind c (fun x => k))
  (at level 10, x pattern, c at level 100, k at level 200).
Notation "c >> k" := (bind c (fun _ => k))
  (at level 65, right associativity).

(** [for x in xs: body], the loop's local variables threaded as [s]. *)
Fixpoint for_each {A S} (xs : list A) (body : A -> S -> M S) (s : S) : M S :=
  match xs with
  | [] => ret s
  | x :: xs' => let* s' := body x s in for_each xs' body s'
  end.

(** [x / n] for an integer [n].  The script divides by [step_total], which
    is at least 1 by then, and by [total]; when [total] is 0 the loop has
    not run, [x] is still the integer 0 it was initialised to, and Python
    raises [ZeroDivisionError]. *)
Definition true_div (x : number) (n : nat) : M number :=
  match n with
  | O => raise ZeroDivisionError
  | S _ => ret (number_div x n)
  end.

(** ** Collaborator calls *)

Definition set_train (mode : bool) : M unit :=
  fun w => (Ok tt, log (EvSetTrain mode) (set_training mode w)).

Definition model_call (data : Data) : M Logits :=
  fun w =>
    let '(logits, s') := net (training w) (params w) (seed w) data in
    (Ok logits, log (EvForward (training w)) (set_seed s' w)).

Definition criterion_call (criterion : Logits -> Label -> number)
    (logits : Logits) (label : Label) : M number :=
  let loss := criterion logits label in
  emit (EvLoss loss) >> ret loss.

Definition accuracy_call (predictions : Logits) (label : Label) : M number :=
  let acc := accuracy_fn predictions label in
  emit (EvAccuracy acc) >> ret acc.

(** [ms.value_and_grad(fn, None, optimizer.parameters)]: runs [fn], then
    differentiates it at the parameters and random state [fn] started from. *)
Definition value_and_grad (fn : Data -> Label -> M number)
    (data : Data) (label : Label) : M (number * Grads) :=
  fun w0 =>
    (let* loss := fn data label in
     emit EvBackward >>
     ret (loss, backward (training w0) (params w0) (seed w0) data label)) w0.

(** [optimizer(grads)]: updates the parameters in place. *)
Definition optimizer (grads : Grads) : M unit :=
  fun w =>
    let '(o', p') := adam (opt_state w) (params w) grads in
    (Ok tt, log EvOptimizer (set_params p' (set_opt_state o' w))).

Definition with_tqdm {A} (total : nat) (body : M A) : M A :=
  emit (EvTqdmOpen total) >> finally body (emit EvTqdmClose).

(** [ms.save_checkpoint(model, path)]. *)
Definition save_checkpoint (path : string) : M unit :=
  fun w => (Ok tt, log (EvSaveCheckpoint path) (set_files (<[path := params w]> (files w)) w)).

(** ** The script's functions *)

Definition forward_fn (data : Data) (label : Label) : M number :=
  let* logits := model_call data in
  let* loss := criterion_call loss_fn logits label in
  ret loss.

Definition grad_fn : Data -> Label -> M (number * Grads) :=
  value_and_grad forward_fn.

Definition train_step (data : Data) (label : Label) : M number :=
  let* (loss, grads) := grad_fn data label in
  optimizer grads >>
  ret loss.

(** Body of the loop of [train_one_epoch], on the batch [(data, label)] and
    the loop's variables [loss_total] and [step_total]. *)
Definition train_one_epoch_body :
    Data * Label -> number * nat -> M (number * nat) :=
  fun '(data, label) '(loss_total, step_total) =>
    let* loss := train_step data (astype_int32 label) in
    let loss_total := number_add loss_total loss in
    let step_total := S step_total in
    let* avg := true_div loss_total step_total in
    emit (EvTqdmPostfix avg None) >>
    emit (EvTqdmUpdate 1) >>
    ret (loss_total, step_total).

Definition train_one_epoch (train_dataset : Dataset) (epoch : nat) : M unit :=
  set_train true >>
  let total := get_dataset_size train_dataset in
  let loss_total := Fin 0 in
  let step_total := 0%nat in
  with_tqdm total
    (emit (EvTqdmDescription epoch) >>
     let* _ :=
       for_each (create_tuple_iterator train_dataset) train_one_epoch_body
         (loss_total, step_total) in
     ret tt).

(** Body of the loop of [evaluate], on the batch [i] and the loop's
    variables [epoch_loss], [epoch_acc] and [step_total]. *)
Definition evaluate_body (criterion : Logits -> Label -> number) :
    Data * Label -> number * number * nat -> M (number * number * nat) :=
  fun i '(epoch_loss, epoch_acc, step_total) =>
    let* predictions := model_call (fst i) in
    let* loss := criterion_call criterion predictions (astype_int32 (snd i)) in
    let epoch_loss := number_add epoch_loss loss in
    let* acc := accuracy_call predictions (snd i) in
    let epoch_acc := number_add epoch_acc acc in
    let step_total := S step_total in
    let* avg_loss := true_div epoch_loss step_total in
    let* avg_acc := true_div epoch_acc step_total in
    emit (EvTqdmPostfix avg_loss (Some avg_acc)) >>
    emit (EvTqdmUpdate 1) >>
    ret (epoch_loss, epoch_acc, step_total).

Definition evaluate (test_dataset : Dataset) (criterion : Logits -> Label -> number)
    (epoch : nat) : M number :=
  let total := get_dataset_size test_dataset in
  let epoch_loss := Fin 0 in
  let epoch_acc := Fin 0 in
  let step_total := 0%nat in
  set_train false >>
  let* (epoch_loss, epoch_acc, step_total) :=
    with_tqdm total
      (emit (EvTqdmDescription epoch) >>
       for_each (create_tuple_iterator test_dataset) (evaluate_body criterion)
         (epoch_loss, epoch_acc, step_total)) in
  true_div epoch_loss total.

(** ** The epoch loop (last cell of the notebook) *)

Variables imdb_train imdb_valid : Dataset.

Definition num_epochs : nat := 5.
Definition ckpt_path : string := "./sentiment_analysis.ckpt".

(** The cell's variables that outlive an iteration. *)
Record LoopVars : Type := mkLoopVars {
  best_valid_loss : number;
  valid_loss : option number
}.

Definition epoch_body (epoch : nat) (vars : LoopVars) : M LoopVars :=
  train_one_epoch imdb_train epoch >>
  let* valid_loss := evaluate imdb_valid loss_fn epoch in
  if lt_number valid_loss (best_valid_loss vars)
  then
    let best_valid_loss := valid_loss in
    save_checkpoint ckpt_path >>
    ret (mkLoopVars best_valid_loss (Some valid_loss))
  else ret (mkLoopVars (best_valid_loss vars) (Some valid_loss)).

(** The first [n] iterations of [for epoch in range(num_epochs)]. *)
Definition epoch_loop (n : nat) : M LoopVars :=
  for_each (seq 0 n) epoch_body (mkLoopVars Inf None).

Definition main : M LoopVars := epoch_loop num_epochs.

(** ** Vocabulary of the specifications *)

(** [c] leaves the observation [obs] of the world as it found it, whether
    it returns or raises. *)
Definition keeps {A X} (obs : World -> X) (c : M A) : Prop :=
  forall w, obs (snd (c w)) = obs w.

(** Dropout is the only consumer of the random state, and inference mode
    turns it off: the logits then do not depend on the random state. *)
Definition dropout_off_in_inference : Prop :=
  forall p s1 s2 d, fst (net false p s1 d) = fst (net false p s2 d).

(** The loss of each batch of [ds], in order, computed in inference mode at
    parameters [p] from random state [s]. *)
Fixpoint batch_losses (criterion : Logits -> Label -> number) (p : Params) (s : Seed)
    (ds : Dataset) : list number :=
  match ds with
  | [] => []
  | i :: ds' =>
      let '(predictions, s') := net false p s (fst i) in
      criterion predictions (astype_int32 (snd i)) :: batch_losses criterion p s' ds'
  end.

(** What one optimization step does to the parameters, the optimizer state
    and the random state, and the loss it measures on the way. *)
Definition TrainState : Type := Params * OptState * Seed.

Definition optimization_step (st : TrainState) (i : Data * Label) : number * TrainState :=
  let '(p, o, s) := st in
  let label := astype_int32 (snd i) in
  let '(logits, s') := net true p s (fst i) in
  let loss := loss_fn logits label in
  let grads := backward true p s (fst i) label in
  let '(o', p') := adam o p grads in
  (loss, (p', o', s')).

(** The part of the world a training step works on. *)
Definition state_of (w : World) : TrainState := (params w, opt_state w, seed w).

Fixpoint train_losses (st : TrainState) (ds : Dataset) : list number :=
  match ds with
  | [] => []
  | i :: ds' =>
      let '(loss, st') := optimization_step st i in
      loss :: train_losses st' ds'
  end.

Fixpoint train_final (st : TrainState) (ds : Dataset) : TrainState :=
  match ds with
  | [] => st
  | i :: ds' => train_final (snd (optimization_step st i)) ds'
  end.

(** The averages a loop displays: after each element, the sum so far
    (starting from [acc] after [n] steps) over the number of steps so far. *)
Fixpoint running_means (acc : number) (n : nat) (l : list number) : list number :=
  match l with
  | [] => []
  | x :: l' =>
      let acc' := number_add acc x in
      number_div acc' (S n) :: running_means acc' (S n) l'
  end.

(** The collaborator calls of one training step, in order. *)
Definition step_events (loss avg : number) : list Event :=
  [EvForward true; EvLoss loss; EvBackward; EvOptimizer;
   EvTqdmPostfix avg None; EvTqdmUpdate 1].

(** The validation loss computed in epoch [e] of the run from [w0], if the
    run gets through that epoch. *)
Definition valid_loss_of_epoch (w0 : World) (e : nat) : option number :=
  match epoch_loop (S e) w0 with
  | (Ok vars, _) => valid_loss vars
  | (Raise _, _) => None
  end.

(** The validation losses of the epochs before [e]. *)
Definition earlier_losses (w0 : World) (e : nat) : list number :=
  omap (valid_loss_of_epoch w0) (seq 0 e).

(** The events so far that [f] selects. *)
Definition events_where (f : Event -> bool) (w : World) : list Event :=
  filter (fun ev => f ev = true) (trace w).

(** The checkpoint writes so far. *)
Definition checkpoint_writes : World -> list Event := events_where is_save_event.

(** The gradient computations and optimizer updates so far. *)
Definition parameter_updates : World -> list Event := events_where is_update_event.

(** What the loop of [evaluate] calls and displays on the batches [ds], from
    random state [s] and the running totals [el], [ea] after [st] steps. *)
Fixpoint evaluate_events (criterion : Logits -> Label -> number) (p : Params) (s : Seed)
    (el ea : number) (st : nat) (ds : Dataset) : list Event :=
  match ds with
  | [] => []
  | i :: ds' =>
      let '(predictions, s') := net false p s (fst i) in
      let loss := criterion predictions (astype_int32 (snd i)) in
      let acc := accuracy_fn predictions (snd i) in
      let el' := number_add el loss in
      let ea' := number_add ea acc in
      [EvForward false; EvLoss loss; EvAccuracy acc;
       EvTqdmPostfix (number_div el' (S st)) (Some (number_div ea' (S st)));
       EvTqdmUpdate 1] ++
      evaluate_events criterion p s' el' ea' (S st) ds'
  end.

(** The random state after evaluating the batches [ds]. *)
Fixpoint evaluate_seed (p : Params) (s : Seed) (ds : Dataset) : Seed :=
  match ds with
  | [] => s
  | i :: ds' => evaluate_seed p (snd (net false p s (fst i))) ds'
  end.

(** The parameters an epoch of the run from [w0] ends with, if the run gets
    through that epoch. *)
Definition params_of_epoch (w0 : World) (e : nat) : option Params :=
  match epoch_loop (S e) w0 with
  | (Ok _, w) => Some (params w)
  | (Raise _, _) => None
  end.

(** The optimizer updates so far. *)
Definition optimizer_steps : World -> list Event := events_where is_optimizer_event.

End Orchestration.

End Script.

(** * Data preparation *)

Module DataPrep.

Definition max_length : nat := 256.

(** Modelled from the spec: [PadTransform] of [mindnlp.transforms] is not
    among the sources.  The spec has every sequence brought to the maximum
    length "by padding/truncation", a shorter one keeping its tokens "with
    the remainder filled by the designated padding id". *)
Definition PadTransform (max_length : nat) (pad_value : nat) (ids : list nat) : list nat :=
  take max_length ids ++ replicate (max_length - length ids) pad_value.

(** A row of the dataset (an example): the ['text'] column and the label. *)
Record Row (T : Type) : Type := mkRow {
  text : T;
  label : nat
}.

Arguments mkRow {T} text label.
Arguments text {T} r.
Arguments label {T} r.

(** [dataset.map(op, 'text')]: [op] rewrites the ['text'] column of each row. *)
Definition map_text {A B} (op : A -> B) (ds : list (Row A)) : list (Row B) :=
  (fun row => mkRow (op (text row)) (label row)) <$> ds.

Section Pipeline.

(** [BasicTokenizer(lower_case=True)]. *)
Variable tokenizer : string -> list string.
(** [vocab = Vocab.from_pretrained(name="glove.6B.100d")], called on a token. *)
Variable vocab : string -> nat.
(** [Lookup] of [mindnlp.transforms], built from a vocabulary and its
    unknown token. *)
Variable Lookup : (string -> nat) -> string -> list string -> list nat.

Definition lookup_op : list string -> list nat := Lookup vocab "<unk>".

Definition pad_op : list nat -> list nat := PadTransform max_length (vocab "<pad>").

(** [[tokenizer, lookup_op, pad_op]] applied in this order. *)
Definition text_ops (t : string) : list nat := pad_op (lookup_op (tokenizer t)).

(** [imdb_train.map([tokenizer, lookup_op, pad_op], 'text')]. *)
Definition map_imdb (imdb : list (Row string)) : list (Row (list nat)) :=
  map_text text_ops imdb.

End Pipeline.

End DataPrep.

(** * Model assembly *)

Module Net.

#[export] Instance result_ret : MRet result := fun _ x => Ok x.
#[export] Instance result_bind : MBind result := fun _ _ f r =>
  match r with
  | Ok x => f x
  | Raise e => Raise e
  end.

(** Rank-2 and rank-3 tensors as nested rows. *)
Definition Tensor2 : Type := list (list Q).
Definition Tensor3 : Type := list (list (list Q)).

Definition has_shape1 {A} (n : nat) (v : list A) : Prop := length v = n.

Definition has_shape2 {A} (r c : nat) (t : list (list A)) : Prop :=
  length t = r /\ Forall (has_shape1 c) t.

Definition has_shape3 {A} (a r c : nat) (t : list (list (list A))) : Prop :=
  length t = a /\ Forall (has_shape2 r c) t.

(** [ops.concat((a, b), axis=1)] on rank-2 tensors. *)
Definition concat_axis1 (a b : Tensor2) : result Tensor2 :=
  if decide (length a = length b)
  then Ok (zip_with app a b)
  else Raise ValueError.

(** Constructor arguments of [StaticLSTM]. *)
Module StaticLSTM.

Record t : Type := make {
  input_size : nat;
  hidden_size : nat;
  num_layers : nat;
  bidirectional : bool;
  batch_first : bool;
  dropout : Q
}.

Definition num_directions (cfg : t) : nat :=
  if bidirectional cfg then 2 else 1.

End StaticLSTM.

(** Constructor arguments of [nn.Dense]. *)
Module Dense.

Record t : Type := make {
  in_channels : nat;
  out_channels : nat
}.

End Dense.

Section Model.

(** The pretrained embedding, [Glove]. *)
Variable Glove : Type.
Variable _embed_dim : Glove -> nat.
(** The three layers applied to a tensor, at the current parameters. *)
Variable embedding_call : Glove -> list (list nat) -> Tensor3.
Variable lstm_call : StaticLSTM.t -> Tensor3 -> result (Tensor3 * (Tensor3 * Tensor3)).
Variable dense_call : Dense.t -> Tensor2 -> result Tensor2.

Record RNN : Type := mkRNN {
  embedding : Glove;
  rnn : StaticLSTM.t;
  fc : Dense.t
}.

(** [RNN.__init__]. *)
Definition RNN_init (embedding : Glove) (hidden_dim output_dim n_layers : nat)
    (bidirectional : bool) : RNN :=
  let embedding_dim := _embed_dim embedding in
  mkRNN embedding
    (StaticLSTM.make embedding_dim hidden_dim n_layers bidirectional true (1 # 2))
    (Dense.make (hidden_dim * 2) output_dim).

(** [RNN.construct]. *)
Definition construct (self : RNN) (inputs : list (list nat)) : result Tensor2 :=
  let embedded := embedding_call (embedding self) inputs in
  '(_, (hidden, _)) ← lstm_call (rnn self) embedded;
  h_fwd ← index_from_end 2 hidden;
  h_bwd ← index_from_end 1 hidden;
  hidden ← concat_axis1 h_fwd h_bwd;
  output ← dense_call (fc self) hidden;
  mret output.

(** The notebook's hyper-parameters and model. *)
Definition hidden_size : nat := 256.
Definition output_size : nat := 2.
Definition num_layers : nat := 2.
Definition bidirectional : bool := true.

Definition model (embedding : Glove) : RNN :=
  RNN_init embedding hidden_size output_size num_layers bidirectional.

(** ** Input/output contracts of the layers *)

(** An embedding maps each id of a [(b, l)] batch to a vector of its
    dimensionality. *)
Definition embedding_contract : Prop :=
  forall emb inputs b l,
    has_shape2 b l inputs ->
    has_shape3 b l (_embed_dim emb) (embedding_call emb inputs).

(** A batch-first LSTM of at least one layer takes [(b, l, input_size)] and
    returns, besides its output, hidden and cell states stacked over layers
    and directions: [(num_directions * num_layers, b, hidden_size)], the last
    layer's forward state at [-2] and backward state at [-1] when
    bidirectional.  Nothing is assumed of a stack of no layers, which the
    framework rejects. *)
Definition lstm_contract : Prop :=
  forall cfg x b l,
    StaticLSTM.batch_first cfg = true ->
    (1 <= StaticLSTM.num_layers cfg)%nat ->
    (1 <= l)%nat ->
    has_shape3 b l (StaticLSTM.input_size cfg) x ->
    exists out hidden cell,
      lstm_call cfg x = Ok (out, (hidden, cell)) /\
      has_shape3 (StaticLSTM.num_directions cfg * StaticLSTM.num_layers cfg) b
        (StaticLSTM.hidden_size cfg) hidden.

(** A dense layer takes [(b, in_channels)] to [(b, out_channels)]. *)
Definition dense_contract : Prop :=
  forall d x b,
    has_shape2 b (Dense.in_channels d) x ->
    exists y, dense_call d x = Ok y /\ has_shape2 b (Dense.out_channels d) y.

End Model.

End Net.

(** * Weight initialization *)

Module WeightInit.

(** Python's [pat in s] on strings: [pat] occurs in [s]. *)
Fixpoint contains (pat s : string) : bool :=
  String.prefix pat s ||
  match s with
  | EmptyString => false
  | String _ s' => contains pat s'
  end.

(** The initializers the script asks for by name. *)
Inductive init_kind : Type :=
| xavier_normal
| zeros
| orthogonal.

(** What a parameter holds: the tensor it was given, or the result of
    [initializer(init, shape, dtype)]. *)
Inductive tensor (T DType : Type) : Type :=
| Given (t : T)
| initializer (init : init_kind) (shape : list nat) (dtype : DType).

Arguments Given {T DType} t.
Arguments initializer {T DType} init shape dtype.

Record Param (T DType : Type) : Type := mkParam {
  shape : list nat;
  dtype : DType;
  data : tensor T DType
}.

Arguments mkParam {T DType} shape dtype data.
Arguments shape {T DType} p.
Arguments dtype {T DType} p.
Arguments data {T DType} p.

(** Parameters are objects that cells refer to; [ParamId] names the object. *)
Abbreviation ParamId := nat.

(** A cell as [initialize_weights] sees it: its class and the parameters it
    reaches, [m.weight] and [m.bias] for a dense layer and
    [m.parameters_and_names()] otherwise. *)
Inductive Cell : Type :=
| Dense (weight bias : ParamId)
| StaticLSTM (parameters_and_names : list (string * ParamId))
| OtherCell (parameters_and_names : list (string * ParamId)).

Section Weights.

Context {T DType : Type}.

Local Abbreviation Store := (gmap ParamId (Param T DType)).

(** [param.set_data(tensor)]. *)
Definition set_data (t : tensor T DType) (p : Param T DType) : Param T DType :=
  mkParam (shape p) (dtype p) t.

(** [param.set_data(initializer(init, param.shape, param.dtype))] on the
    parameter object [param]. *)
Definition reinitialize (init : init_kind) (param : ParamId) (store : Store) : Store :=
  alter (fun p => set_data (initializer init (shape p) (dtype p)) p) param store.

(** Body of the loop over [m.parameters_and_names()]. *)
Definition initialize_named (store : Store) (np : string * ParamId) : Store :=
  let '(name, param) := np in
  if contains "bias" name then reinitialize zeros param store
  else if contains "weight" name then reinitialize orthogonal param store
  else store.

Definition initialize_weights (m : Cell) (store : Store) : Store :=
  match m with
  | Dense weight bias =>
      reinitialize zeros bias (reinitialize xavier_normal weight store)
  | StaticLSTM parameters_and_names =>
      fold_left initialize_named parameters_and_names store
  | OtherCell _ => store
  end.

(** [model.apply(fn)], over the cells of the model in the order [apply]
    visits them. *)
Definition apply (fn : Cell -> Store -> Store) (cells : list Cell) (store : Store) : Store :=
  fold_left (fun store m => fn m store) cells store.

(** The parameters [initialize_weights] asks to reinitialize in a cell. *)
Definition targets (m : Cell) : list ParamId :=
  match m with
  | Dense weight bias => [weight; bias]
  | StaticLSTM parameters_and_names =>
      snd <$> filter (fun np => contains "bias" (fst np) || contains "weight" (fst np) = true)
                parameters_and_names
  | OtherCell _ => []
  end.

(** [p'] is [p], or [p] reinitialized at its own shape and dtype. *)
Definition reinitialized_from (p p' : Param T DType) : Prop :=
  shape p' = shape p /\
  dtype p' = dtype p /\
  (data p' = data p \/ exists init, data p' = initializer init (shape p) (dtype p)).

(** What the loop over an LSTM's parameters leaves in a parameter, by the
    name it is listed under. *)
Definition initialized_by_name (name : string) (p : Param T DType) : Param T DType :=
  if contains "bias" name then set_data (initializer zeros (shape p) (dtype p)) p
  else if contains "weight" name then set_data (initializer orthogonal (shape p) (dtype p)) p
  else p.

End Weights.

End WeightInit.

(** * A small concrete instance

    One scalar weight, scalar inputs, additive noise in training mode and
    plain gradient descent: enough to run the script's functions. *)

Module Toy.

Definition net (training : bool) (p : Q) (s : nat) (d : Q) : Q * nat :=
  if training
  then ((p * d + inject_Z (Z.of_nat s) / 20)%Q, S s)
  else ((p * d)%Q, s).

Definition loss_fn (y l : Q) : number := Fin ((y - l) * (y - l)).

(** A loss that has diverged, one that has overflowed, and one that is NaN
    on a large error only. *)
Definition nan_loss (y l : Q) : number := NaN.
Definition inf_loss (y l : Q) : number := Inf.
Definition diverging_loss (y l : Q) : number :=
  if Qle_bool (1 # 10) ((y - l) * (y - l)) then NaN else loss_fn y l.


Definition backward (training : bool) (p : Q) (s : nat) (d l : Q) : Q :=
  (2 * (fst (net training p s d) - l) * d)%Q.

Definition adam (o : nat) (p g : Q) : nat * Q := (S o, Qred (p - g / 10)%Q).

Definition accuracy_fn (y l : Q) : number := if Qeq_bool y l then Fin 1 else Fin 0.

Definition astype_int32 (l : Q) : Q := l.

Definition world0 : @Script.World Q nat nat :=
  Script.mkWorld true 1%Q 0%nat 0%nat ∅ [].

(** Same parameters as [world0]; other mode, random state and history. *)
Definition world1 : @Script.World Q nat nat :=
  Script.mkWorld false 1%Q 5%nat 99%nat ∅ [EvBackward; EvOptimizer].

(** As [world0], with a file of another run on disk. *)
Definition world2 : @Script.World Q nat nat :=
  Script.mkWorld true 1%Q 0%nat 0%nat {["./other.ckpt" := 3%Q]} [].

Definition train_data : list (Q * Q) := [(1%Q, 2%Q); (2%Q, 4%Q)].
Definition valid_data : list (Q * Q) := [(1%Q, 2%Q); (3%Q, 6%Q); (1 # 2, 1%Q)].

(** Layers that return zeros of the right shape; the embedding is its own
    dimensionality, and the LSTM rejects a stack of no layers. *)
Definition embedding_call (emb : nat) (inputs : list (list nat)) : Net.Tensor3 :=
  (fun row : list nat => (fun _ : nat => replicate emb 0%Q) <$> row) <$> inputs.

Definition lstm_call (cfg : Net.StaticLSTM.t) (x : Net.Tensor3) :
    result (Net.Tensor3 * (Net.Tensor3 * Net.Tensor3)) :=
  let state :=
    replicate (Net.StaticLSTM.num_directions cfg * Net.StaticLSTM.num_layers cfg)
      (replicate (length x) (replicate (Net.StaticLSTM.hidden_size cfg) 0%Q)) in
  if Net.StaticLSTM.num_layers cfg =? 0 then Raise ValueError
  else Ok (x, (state, state)).

Definition dense_call (d : Net.Dense.t) (x : Net.Tensor2) : result Net.Tensor2 :=
  if forallb (fun row => length row =? Net.Dense.in_channels d) x
  then Ok ((fun _ : list Q => replicate (Net.Dense.out_channels d) 0%Q) <$> x)
  else Raise ValueError.

Definition inputs : list (list nat) :=
  [replicate DataPrep.max_length 7%nat; replicate DataPrep.max_length 9%nat].

(** The script's functions over these collaborators. *)
Abbreviation train_one_epoch :=
  (Script.train_one_epoch (OptState := nat) net loss_fn backward adam astype_int32).
Abbreviation evaluate :=
  (Script.evaluate (Params := Q) (OptState := nat) net accuracy_fn astype_int32).
Abbreviation epoch_loop :=
  (Script.epoch_loop (OptState := nat) net loss_fn backward adam accuracy_fn astype_int32
     train_data valid_data).

(** The cell's variables and the world after the first [e] epochs from
    [world0]. *)
Definition vars_after (e : nat) : Script.LoopVars :=
  match fst (epoch_loop e world0) with
  | Ok vars => vars
  | Raise _ => Script.mkLoopVars Inf None
  end.

Definition world_after (e : nat) : @Script.World Q nat nat := snd (epoch_loop e world0).

(** A number in lowest terms, for display. *)
Definition reduced (x : number) : number :=
  match x with
  | Fin q => Fin (Qred q)
  | _ => x
  end.

Abbreviation valid_loss_of_epoch :=
  (Script.valid_loss_of_epoch (OptState := nat) net loss_fn backward adam accuracy_fn
     astype_int32 train_data valid_data world0).

Abbreviation earlier_losses :=
  (Script.earlier_losses (OptState := nat) net loss_fn backward adam accuracy_fn
     astype_int32 train_data valid_data world0).

(** The same run with another loss function. *)
Abbreviation epoch_loop_with loss :=
  (Script.epoch_loop (OptState := nat) net loss backward adam accuracy_fn astype_int32
     train_data valid_data).

Abbreviation earlier_losses_with loss :=
  (Script.earlier_losses (OptState := nat) net loss backward adam accuracy_fn
     astype_int32 train_data valid_data world0).

(** A vocabulary with ['<pad>'] at id 1 and everything else at 0. *)
Definition vocab (token : string) : nat :=
  if String.eqb token "<pad>" then 1 else 0.

Definition _embed_dim (emb : nat) : nat := emb.

(** The parameters of a small model: the embedding table, four LSTM
    parameters under their usual names and a dense layer's two. *)
Definition store0 : gmap WeightInit.ParamId (WeightInit.Param string string) :=
  list_to_map
    [(0, WeightInit.mkParam [400; 100] "float32" (WeightInit.Given "glove"));
     (1, WeightInit.mkParam [1024; 100] "float32" (WeightInit.Given "w_ih"));
     (2, WeightInit.mkParam [1024; 256] "float32" (WeightInit.Given "w_hh"));
     (3, WeightInit.mkParam [1024] "float32" (WeightInit.Given "b_ih"));
     (4, WeightInit.mkParam [1024] "float32" (WeightInit.Given "b_hh"));
     (5, WeightInit.mkParam [2; 512] "float32" (WeightInit.Given "fc_w"));
     (6, WeightInit.mkParam [2] "float32" (WeightInit.Given "fc_b"))].

Definition lstm_names : list (string * WeightInit.ParamId) :=
  [("weight_ih_l0", 1); ("weight_hh_l0", 2); ("bias_ih_l0", 3); ("bias_hh_l0", 4)].

(** The cells in the order [apply] visits them: children first. *)
Definition cells : list WeightInit.Cell :=
  [WeightInit.OtherCell [("embedding_table", 0)];
   WeightInit.OtherCell lstm_names;
   WeightInit.StaticLSTM lstm_names;
   WeightInit.Dense 5 6;
   WeightInit.OtherCell (("embedding.embedding_table", 0) :: lstm_names)].

End Toy.

(** * Facts about numbers *)

Lemma Qltb_lt x y : Qltb x y = true <-> (x < y)%Q.
Proof.
  unfold Qltb. rewrite Qlt_alt. destruct (x ?= y)%Q; split; congruence.
Qed.

Lemma lt_number_Fin x y : lt_number (Fin x) (Fin y) = true <-> (x < y)%Q.
Proof. apply Qltb_lt. Qed.

(** NaN is on neither side of a comparison that holds. *)
Lemma lt_number_not_nan x y : lt_number x y = true -> x <> NaN /\ y <> NaN.
Proof. destruct x, y; simpl; intros H; split; congruence. Qed.

Lemma lt_number_below_inf x y : lt_number x y = true -> lt_number x Inf = true.
Proof. destruct x, y; simpl; congruence. Qed.

Lemma number_le_refl a : a <> NaN -> number_le a a.
Proof. destruct a; simpl; intros H; try exact I; [apply Qle_refl | congruence]. Qed.

Lemma number_le_trans a b c : number_le a b -> number_le b c -> number_le a c.
Proof.
  destruct a as [x| | |], b as [y| | |], c as [z| | |]; simpl; try tauto. apply Qle_trans.
Qed.

Lemma lt_number_le x y : lt_number x y = true -> number_le x y.
Proof.
  destruct x as [a| | |], y as [b| | |]; simpl; try congruence; try (intros _; exact I).
  rewrite Qltb_lt. apply Qlt_le_weak.
Qed.

Lemma lt_le_number_trans x y z :
  lt_number x y = true -> number_le y z -> lt_number x z = true.
Proof.
  destruct x as [a| | |], y as [b| | |], z as [c| | |]; simpl;
    try congruence; try tauto.
  rewrite !Qltb_lt. apply Qlt_le_trans.
Qed.

(** Away from NaN the order is total. *)
Lemma not_lt_number_le x y :
  x <> NaN -> y <> NaN -> lt_number x y = false -> number_le y x.
Proof.
  destruct x as [a| | |], y as [b| | |]; simpl; try congruence; try (intros; exact I).
  intros _ _ Hlt. apply Qnot_lt_le. rewrite <- Qltb_lt, Hlt. discriminate.
Qed.

(** On finite numbers the sum is the sum of rationals. *)
Lemma number_sum_Fin (qs : list Q) : number_sum (Fin <$> qs) = Fin (Qsum qs).
Proof.
  unfold number_sum, Qsum. generalize 0%Q.
  induction qs as [|q qs IH]; intros acc; [reflexivity|]. simpl. apply IH.
Qed.

(** One NaN among the terms makes the sum NaN. *)
Lemma number_sum_nan (l : list number) : NaN ∈ l -> number_sum l = NaN.
Proof.
  unfold number_sum. generalize (Fin 0).
  induction l as [|x l IH]; intros acc Hin; [inversion Hin|].
  assert (Hnan : forall l', fold_left number_add l' NaN = NaN).
  { induction l' as [|y l' IH']; [reflexivity | exact IH']. }
  apply elem_of_cons in Hin as [<- | Hin]; simpl.
  - destruct acc; apply Hnan.
  - apply IH, Hin.
Qed.

(** Being below the minimum is being below [float('inf')] and below every
    element that is a number. *)
Lemma below_minimum m l v :
  is_minimum m l ->
  (lt_number v m = true <->
   lt_number v Inf = true /\ forall u, u ∈ l -> u <> NaN -> lt_number v u = true).
Proof.
  intros (Hnan & Hfrom & Hmin). split.
  - intros Hlt. split; [eapply lt_number_below_inf, Hlt|].
    intros u Hu Hnu. eapply lt_le_number_trans; [exact Hlt | apply Hmin; assumption].
  - intros [Hinf Hall]. destruct Hfrom as [-> | Hin]; [exact Hinf | apply Hall; assumption].
Qed.

(** The greedy update keeps the minimum. *)
Lemma minimum_step m l v :
  is_minimum m l ->
  is_minimum (if lt_number v m then v else m) (l ++ [v]).
Proof.
  intros (Hnan & Hfrom & Hmin). destruct (lt_number v m) eqn:Hlt.
  - destruct (lt_number_not_nan v m Hlt) as [Hv _].
    split; [exact Hv|]. split.
    { right. apply elem_of_app. right. apply list_elem_of_singleton. reflexivity. }
    intros u [Hu | Hu]%elem_of_app Hnu.
    + apply lt_number_le. eapply lt_le_number_trans; [exact Hlt | apply Hmin; assumption].
    + apply list_elem_of_singleton in Hu. subst u. apply number_le_refl, Hv.
  - split; [exact Hnan|]. split.
    { destruct Hfrom as [-> | Hin]; [left; reflexivity | right; apply elem_of_app; left; exact Hin]. }
    intros u [Hu | Hu]%elem_of_app Hnu; [apply Hmin; assumption|].
    apply list_elem_of_singleton in Hu. subst u.
    apply not_lt_number_le; assumption.
Qed.

Lemma minimum_snoc l v :
  minimum (l ++ [v]) = if lt_number v (minimum l) then v else minimum l.
Proof. unfold minimum. rewrite fold_left_app. reflexivity. Qed.

(** The computed minimum is the minimum. *)
Lemma minimum_is_minimum l : is_minimum (minimum l) l.
Proof.
  induction l as [|v l IH] using rev_ind.
  - split; [discriminate|]. split; [left; reflexivity|]. intros u Hu. inversion Hu.
  - rewrite minimum_snoc. apply minimum_step, IH.
Qed.

(** * Facts about the orchestrators *)

Section OrchestrationFacts.

Import Script.

Context {Params OptState Seed Grads Data Label Logits : Type}.

Variable net : bool -> Params -> Seed -> Data -> Logits * Seed.
Variable loss_fn : Logits -> Label -> number.
Variable backward : bool -> Params -> Seed -> Data -> Label -> Grads.
Variable adam : OptState -> Params -> Grads -> OptState * Params.
Variable accuracy_fn : Logits -> Label -> number.
Variable astype_int32 : Label -> Label.

Local Abbreviation World := (@World Params OptState Seed).
Local Abbreviation M := (@M Params OptState Seed).
Local Abbreviation Dataset := (@Dataset Data Label).
Local Abbreviation evaluate :=
  (evaluate (Params := Params) (OptState := OptState) net accuracy_fn astype_int32).
Local Abbreviation train_one_epoch :=
  (train_one_epoch (OptState := OptState) net loss_fn backward adam astype_int32).
Local Abbreviation epoch_body :=
  (epoch_body (OptState := OptState) net loss_fn backward adam accuracy_fn astype_int32).
Local Abbreviation epoch_loop :=
  (epoch_loop (OptState := OptState) net loss_fn backward adam accuracy_fn astype_int32).
Local Abbreviation batch_losses := (batch_losses net astype_int32).

(** ** The monad *)

Lemma bind_ok {A B} (c : M A) (k : A -> M B) w a w' :
  c w = (Ok a, w') -> bind c k w = k a w'.
Proof. unfold bind. intros ->. reflexivity. Qed.

Lemma for_each_app {A S} (xs ys : list A) (body : A -> S -> M S) s w :
  for_each (xs ++ ys) body s w = bind (for_each xs body s) (for_each ys body) w.
Proof.
  revert s w. induction xs as [|x xs IH]; intros s w; simpl.
  - reflexivity.
  - unfold bind. destruct (body x s w) as [[s'|e] w']; [|reflexivity].
    rewrite IH. reflexivity.
Qed.

(** ** Frame rules: what a computation leaves alone *)

Lemma keeps_ret {A X} (obs : World -> X) (a : A) : keeps obs (ret a).
Proof. intros w. reflexivity. Qed.

Lemma keeps_raise {A X} (obs : World -> X) e : keeps obs (raise (A := A) e).
Proof. intros w. reflexivity. Qed.

Lemma keeps_bind {A B X} (obs : World -> X) (c : M A) (k : A -> M B) :
  keeps obs c -> (forall a, keeps obs (k a)) -> keeps obs (bind c k).
Proof.
  intros Hc Hk w. unfold bind. specialize (Hc w).
  destruct (c w) as [[a|e] w']; simpl in *.
  - rewrite Hk. exact Hc.
  - exact Hc.
Qed.

Lemma keeps_finally {A X} (obs : World -> X) (c : M A) (h : M unit) :
  keeps obs c -> keeps obs h -> keeps obs (finally c h).
Proof.
  intros Hc Hh w. unfold finally. specialize (Hc w).
  destruct (c w) as [r w']; simpl in *. specialize (Hh w').
  destruct (h w') as [[u|e] w'']; simpl in *; congruence.
Qed.

Lemma keeps_for_each {A S X} (obs : World -> X) (xs : list A) (body : A -> S -> M S) s :
  (forall x s', keeps obs (body x s')) -> keeps obs (for_each xs body s).
Proof.
  intros Hb. revert s. induction xs as [|x xs IH]; intros s; simpl.
  - apply keeps_ret.
  - apply keeps_bind; [apply Hb | apply IH].
Qed.

Lemma keeps_true_div {X} (obs : World -> X) x n : keeps obs (true_div x n).
Proof. destruct n; intros w; reflexivity. Qed.

Lemma keeps_value_and_grad {X} (obs : World -> X) (fn : Data -> Label -> M number) d l :
  keeps obs (fn d l) ->
  keeps obs (emit EvBackward) ->
  keeps obs (value_and_grad backward fn d l).
Proof.
  intros Hfn Hemit w. unfold value_and_grad.
  apply (keeps_bind obs (fn d l)); [exact Hfn|]. intros loss.
  apply keeps_bind; [apply Hemit | intros _; apply keeps_ret].
Qed.

Lemma events_where_log f (w : World) ev :
  events_where f (log ev w) = events_where f w ++ (if f ev then [ev] else []).
Proof.
  unfold events_where, log; simpl. rewrite filter_app. f_equal.
  unfold filter; simpl. destruct (f ev); reflexivity.
Qed.

Ltac frame_prim :=
  let w := fresh "w" in
  intros w;
  unfold emit, set_train, model_call, optimizer, save_checkpoint; simpl;
  repeat match goal with
    | |- context [let '(_, _) := ?p in _] => destruct p
    end;
  unfold checkpoint_writes, parameter_updates;
  simpl; rewrite ?events_where_log; simpl; rewrite ?app_nil_r;
  reflexivity.

Ltac frame_step :=
  lazymatch goal with
  | |- keeps _ (ret _) => apply keeps_ret
  | |- keeps _ (raise _) => apply keeps_raise
  | |- keeps _ (true_div _ _) => apply keeps_true_div
  | |- keeps _ (finally _ _) => apply keeps_finally
  | |- keeps _ (bind _ _) => apply keeps_bind; [| intros ?]
  | |- keeps _ (for_each _ _ _) =>
      apply keeps_for_each; intros ? ?;
      repeat match goal with p : (_ * _)%type |- _ => destruct p end;
      unfold Script.evaluate_body, Script.train_one_epoch_body; cbv beta iota
  | |- keeps _ (value_and_grad _ _ _ _) =>
      apply keeps_value_and_grad
  | |- keeps _ (with_tqdm _ _) => unfold with_tqdm
  | |- keeps _ (forward_fn _ _ _ _) => unfold forward_fn
  | |- keeps _ (grad_fn _ _ _ _ _) => unfold grad_fn
  | |- keeps _ (Script.train_step _ _ _ _ _ _) => unfold Script.train_step
  | |- keeps _ (criterion_call _ _ _) => unfold criterion_call; cbv zeta
  | |- keeps _ (accuracy_call _ _ _) => unfold accuracy_call; cbv zeta
  | |- keeps _ (let '(_, _) := ?p in _) => destruct p
  | |- keeps _ _ => frame_prim
  end.

Ltac frame := repeat frame_step.

(** ** What [evaluate] leaves alone *)

Lemma evaluate_keeps_persistent ds criterion epoch :
  keeps (fun w => (params w, opt_state w, parameter_updates w))
    (evaluate ds criterion epoch).
Proof. unfold Script.evaluate. frame. Qed.

Lemma evaluate_params ds criterion epoch (w : World) :
  params (snd (evaluate ds criterion epoch w)) = params w.
Proof.
  pose proof (evaluate_keeps_persistent ds criterion epoch w) as H.
  injection H as Hp _ _. exact Hp.
Qed.

Lemma evaluate_keeps_disk ds criterion epoch :
  keeps (fun w => (files w, checkpoint_writes w)) (evaluate ds criterion epoch).
Proof. unfold Script.evaluate. frame. Qed.

Lemma train_one_epoch_keeps_disk ds epoch :
  keeps (fun w => (files w, checkpoint_writes w)) (train_one_epoch ds epoch).
Proof. unfold Script.train_one_epoch. frame. Qed.

(** ** The loop of [evaluate] *)

Lemma batch_losses_length criterion p s (ds : Dataset) :
  length (batch_losses criterion p s ds) = length ds.
Proof.
  revert s. induction ds as [|i ds IH]; intros s; simpl; [reflexivity|].
  destruct (net false p s (fst i)) as [y s']. simpl. f_equal. apply IH.
Qed.

Lemma evaluate_body_run criterion i el ea st (w : World) :
  training w = false ->
  evaluate_body net accuracy_fn astype_int32 criterion i (el, ea, st) w =
  let '(predictions, s') := net false (params w) (seed w) (fst i) in
  let loss := criterion predictions (astype_int32 (snd i)) in
  let acc := accuracy_fn predictions (snd i) in
  let avg_loss := number_div (number_add el loss) (S st) in
  let avg_acc := number_div (number_add ea acc) (S st) in
  (Ok (number_add el loss, number_add ea acc, S st),
   log (EvTqdmUpdate 1) (log (EvTqdmPostfix avg_loss (Some avg_acc))
     (log (EvAccuracy acc) (log (EvLoss loss) (log (EvForward false) (set_seed s' w)))))).
Proof.
  intros Hmode.
  unfold evaluate_body, model_call, criterion_call, accuracy_call, true_div, emit, bind, ret.
  rewrite Hmode. destruct (net false (params w) (seed w) (fst i)). reflexivity.
Qed.

Lemma evaluate_loop criterion (ds : Dataset) :
  forall el ea st (w : World),
    training w = false ->
    exists ea' w',
      for_each ds (evaluate_body net accuracy_fn astype_int32 criterion) (el, ea, st) w =
      (Ok (fold_left number_add (batch_losses criterion (params w) (seed w) ds) el, ea',
           (st + length ds)%nat), w').
Proof.
  induction ds as [|i ds IH]; intros el ea st w Hmode; cbn [for_each batch_losses length].
  - exists ea, w. rewrite Nat.add_0_r. reflexivity.
  - unfold bind at 1. rewrite evaluate_body_run by exact Hmode.
    destruct (net false (params w) (seed w) (fst i)) as [predictions s'] eqn:Hnet.
    cbv beta iota zeta.
    match goal with
    | |- context [for_each ds _ (?el1, ?ea1, ?st1) ?w1] =>
        destruct (IH el1 ea1 st1 w1 Hmode) as (ea' & w' & Hloop)
    end.
    exists ea', w'. rewrite Hloop, Nat.add_succ_r. reflexivity.
Qed.

Lemma evaluate_result (ds : Dataset) criterion epoch (w : World) :
  fst (evaluate ds criterion epoch w) =
  match ds with
  | [] => Raise ZeroDivisionError
  | _ :: _ => Ok (mean (batch_losses criterion (params w) (seed w) ds))
  end.
Proof.
  unfold Script.evaluate, with_tqdm, finally, set_train, emit, get_dataset_size,
    create_tuple_iterator.
  unfold bind at 1 2 3 4. 
  match goal with
  | |- context [for_each ds _ (?el1, ?ea1, ?st1) ?w1] =>
      destruct (evaluate_loop criterion ds el1 ea1 st1 w1 eq_refl) as (ea' & w' & Hloop)
  end.
  rewrite Hloop. simpl.
  unfold mean, number_sum. rewrite batch_losses_length.
  destruct ds; reflexivity.
Qed.

Lemma batch_losses_seed criterion p (ds : Dataset) :
  dropout_off_in_inference net ->
  forall s1 s2, batch_losses criterion p s1 ds = batch_losses criterion p s2 ds.
Proof.
  intros Hoff. induction ds as [|i ds IH]; intros s1 s2; simpl; [reflexivity|].
  pose proof (Hoff p s1 s2 (fst i)) as Hlogits.
  destruct (net false p s1 (fst i)) as [y1 s1'], (net false p s2 (fst i)) as [y2 s2'].
  simpl in Hlogits. subst y2. f_equal. apply IH.
Qed.

(** C2: on a non-empty sequence of batches, [evaluate] returns the sum of the
    per-batch losses divided by the number of batches the dataset reports
    (and there is one loss per batch); when the losses are finite numbers,
    that is the sum of these rationals over the number of batches. *)
Theorem evaluate_returns_mean_loss (ds : Dataset) criterion epoch (w : World) :
  ds <> [] ->
  let losses := batch_losses criterion (params w) (seed w) ds in
  fst (evaluate ds criterion epoch w) =
    Ok (number_div (number_sum losses) (get_dataset_size ds)) /\
  length losses = get_dataset_size ds /\
  (forall qs : list Q,
     losses = Fin <$> qs ->
     fst (evaluate ds criterion epoch w) =
       Ok (Fin (Qsum qs / inject_Z (Z.of_nat (get_dataset_size ds))))).
Proof.
  intros Hne losses.
  assert (Hmean : fst (evaluate ds criterion epoch w) =
                  Ok (number_div (number_sum losses) (get_dataset_size ds))).
  { rewrite evaluate_result. destruct ds as [|i ds]; [contradiction|].
    unfold mean. fold losses. unfold losses at 2. rewrite batch_losses_length.
    reflexivity. }
  split; [exact Hmean|]. split; [apply batch_losses_length|].
  intros qs Hqs. rewrite Hmean, Hqs, number_sum_Fin. reflexivity.
Qed.

(** C3: [evaluate] returns with the model parameters (and the optimizer
    state) as it found them, and runs no gradient computation and no
    optimizer update. *)
Theorem evaluate_preserves_parameters (ds : Dataset) criterion epoch (w : World) :
  let w' := snd (evaluate ds criterion epoch w) in
  params w' = params w /\
  opt_state w' = opt_state w /\
  parameter_updates w' = parameter_updates w.
Proof.
  intros w'. pose proof (evaluate_keeps_persistent ds criterion epoch w) as H.
  fold w' in H. injection H as Hp Ho Hu. auto.
Qed.

(** C4: with dropout off in inference mode, the loss [evaluate] returns is a
    function of the parameters and the batches alone: two runs on the same
    batches at equal parameters return the same loss, whatever the mode flag
    and random state they start from; in particular a run and the run that
    follows it. *)
Theorem evaluate_deterministic (ds : Dataset) criterion epoch1 epoch2 (w1 w2 : World) :
  dropout_off_in_inference net ->
  (params w1 = params w2 ->
   fst (evaluate ds criterion epoch1 w1) = fst (evaluate ds criterion epoch2 w2)) /\
  fst (evaluate ds criterion epoch2 (snd (evaluate ds criterion epoch1 w1))) =
    fst (evaluate ds criterion epoch1 w1).
Proof.
  intros Hoff.
  assert (Hgen : forall e e' (w w' : World), params w = params w' ->
            fst (evaluate ds criterion e w) = fst (evaluate ds criterion e' w')).
  { intros e e' w w' Hp. rewrite !evaluate_result, Hp.
    rewrite (batch_losses_seed criterion (params w') ds Hoff (seed w) (seed w')).
    reflexivity. }
  split; [apply Hgen|].
  apply Hgen. apply evaluate_params.
Qed.

(** C9: [evaluate] divides by the batch count unguarded: it returns a value
    exactly when there is at least one batch, and on an empty dataset it
    raises [ZeroDivisionError]. *)
Theorem evaluate_needs_batches (ds : Dataset) criterion epoch (w : World) :
  ((exists v, fst (evaluate ds criterion epoch w) = Ok v) <-> ds <> []) /\
  fst (evaluate [] criterion epoch w) = Raise ZeroDivisionError.
Proof.
  rewrite !evaluate_result. split; [|reflexivity].
  destruct ds as [|i ds]; split.
  - intros [v Hv]. discriminate.
  - intros H. contradiction.
  - intros _. discriminate.
  - intros _. eexists. reflexivity.
Qed.

(** ** The loop of [train_one_epoch] *)

Local Abbreviation optimization_step :=
  (optimization_step net loss_fn backward adam astype_int32).
Local Abbreviation train_losses := (train_losses net loss_fn backward adam astype_int32).
Local Abbreviation train_final := (train_final net loss_fn backward adam astype_int32).
Local Abbreviation train_one_epoch_body :=
  (train_one_epoch_body (OptState := OptState) net loss_fn backward adam astype_int32).

Lemma train_one_epoch_body_run i loss_total step_total (w : World) :
  training w = true ->
  exists w',
    train_one_epoch_body i (loss_total, step_total) w =
      (Ok (number_add loss_total (fst (optimization_step (state_of w) i)), S step_total),
       w') /\
    state_of w' = snd (optimization_step (state_of w) i) /\
    training w' = true /\
    trace w' =
      trace w ++
      step_events (fst (optimization_step (state_of w) i))
        (number_div (number_add loss_total (fst (optimization_step (state_of w) i)))
           (S step_total)).
Proof.
  intros Hmode. destruct i as [data label].
  unfold Script.train_one_epoch_body, Script.train_step, grad_fn, value_and_grad, forward_fn,
    model_call, criterion_call, optimizer, true_div, emit, bind, ret,
    Script.optimization_step, state_of.
  rewrite Hmode. simpl.
  destruct (net true (params w) (seed w) data) as [logits s']. simpl.
  destruct (adam (opt_state w) (params w) _) as [o' p']. simpl.
  eexists. split; [reflexivity|]. simpl.
  repeat split; [exact Hmode|].
  unfold step_events. rewrite <- !app_assoc. reflexivity.
Qed.

Lemma train_losses_length st (ds : Dataset) : length (train_losses st ds) = length ds.
Proof.
  revert st. induction ds as [|i ds IH]; intros st; simpl; [reflexivity|].
  destruct (optimization_step st i) as [loss st']. simpl. f_equal. apply IH.
Qed.

Lemma train_loop (ds : Dataset) :
  forall loss_total step_total (w : World),
    training w = true ->
    let losses := train_losses (state_of w) ds in
    exists w',
      for_each ds train_one_epoch_body (loss_total, step_total) w =
        (Ok (fold_left number_add losses loss_total, (step_total + length ds)%nat), w') /\
      state_of w' = train_final (state_of w) ds /\
      training w' = true /\
      trace w' =
        trace w ++ concat (zip_with step_events losses
                             (running_means loss_total step_total losses)).
Proof.
  induction ds as [|i ds IH]; intros loss_total step_total w Hmode;
    cbn [for_each Script.train_losses Script.train_final length].
  - exists w. rewrite Nat.add_0_r, app_nil_r. auto.
  - destruct (train_one_epoch_body_run i loss_total step_total w Hmode)
      as (w1 & Hrun & Hst & Hmode1 & Htrace1).
    unfold bind at 1. rewrite Hrun.
    destruct (optimization_step (state_of w) i) as [loss st1] eqn:Hstep.
    cbn [fst snd] in *.
    destruct (IH (number_add loss_total loss) (S step_total) w1 Hmode1)
      as (w' & Hloop & Hst' & Hmode' & Htrace').
    rewrite Hst in *. exists w'. rewrite Hloop, Nat.add_succ_r.
    repeat split; try assumption.
    rewrite Htrace', Htrace1, <- app_assoc. reflexivity.
Qed.

Lemma train_one_epoch_run (ds : Dataset) epoch (w : World) :
  let losses := train_losses (state_of w) ds in
  exists w',
    train_one_epoch ds epoch w = (Ok tt, w') /\
    state_of w' = train_final (state_of w) ds /\
    training w' = true /\
    trace w' =
      trace w ++
      [EvSetTrain true; EvTqdmOpen (get_dataset_size ds); EvTqdmDescription epoch] ++
      concat (zip_with step_events losses (running_means (Fin 0) 0 losses)) ++
      [EvTqdmClose].
Proof.
  intros losses.
  unfold Script.train_one_epoch, with_tqdm, finally, set_train, emit, create_tuple_iterator.
  unfold bind at 1 2 3 4.
  match goal with
  | |- context [for_each ds _ (?lt, ?st) ?w1] =>
      destruct (train_loop ds lt st w1 eq_refl) as (w' & Hloop & Hst & Hmode & Htrace)
  end.
  rewrite Hloop. eexists. split; [reflexivity|].
  cbn [snd]. unfold state_of in *. simpl in *.
  repeat split; try assumption.
  rewrite Htrace. rewrite <- !app_assoc. reflexivity.
Qed.

Lemma running_means_length acc n l : length (running_means acc n l) = length l.
Proof.
  revert acc n. induction l as [|x l IH]; intros acc n; simpl; [reflexivity|].
  f_equal. apply IH.
Qed.

Lemma running_means_lookup l :
  forall acc n k,
    (k < length l)%nat ->
    running_means acc n l !! k =
    Some (number_div (fold_left number_add (take (S k) l) acc) (n + S k)).
Proof.
  induction l as [|x l IH]; intros acc n k Hk; simpl in Hk; [lia|].
  destruct k as [|k]; cbn [running_means lookup list_lookup].
  - rewrite Nat.add_1_r. destruct l; reflexivity.
  - rewrite IH by lia. replace (S n + S k)%nat with (n + S (S k))%nat by lia. reflexivity.
Qed.

Lemma optimizer_events_of_steps (losses averages : list number) :
  filter (fun ev => is_optimizer_event ev = true)
    (concat (zip_with step_events losses averages)) =
  replicate (min (length losses) (length averages)) EvOptimizer.
Proof.
  revert averages. induction losses as [|x losses IH]; intros [|a averages];
    try reflexivity.
  cbn [zip_with concat length min]. rewrite filter_app, IH. reflexivity.
Qed.

(** C5: one epoch of training takes exactly one optimization step per batch;
    each step calls, in this order, the forward pass, the loss, the gradient
    computation and the optimizer, updating parameters as
    [optimization_step] says, then adds the batch loss to the running total
    and reports the total over the number of steps so far; the epoch returns
    nothing ([tt]). *)
Theorem train_one_epoch_steps (ds : Dataset) epoch (w : World) :
  let losses := train_losses (state_of w) ds in
  let averages := running_means (Fin 0) 0 losses in
  exists w',
    train_one_epoch ds epoch w = (Ok tt, w') /\
    state_of w' = train_final (state_of w) ds /\
    trace w' =
      trace w ++
      [EvSetTrain true; EvTqdmOpen (get_dataset_size ds); EvTqdmDescription epoch] ++
      concat (zip_with step_events losses averages) ++
      [EvTqdmClose] /\
    length losses = length ds /\
    length averages = length ds /\
    events_where is_optimizer_event w' =
      events_where is_optimizer_event w ++ replicate (length ds) EvOptimizer /\
    (forall k, (k < length ds)%nat ->
       averages !! k =
       Some (number_div (number_sum (take (S k) losses)) (S k))).
Proof.
  intros losses averages.
  destruct (train_one_epoch_run ds epoch w) as (w' & Hrun & Hst & _ & Htrace).
  fold losses in Htrace. fold averages in Htrace.
  assert (Hlen : length losses = length ds) by apply train_losses_length.
  assert (Hlen' : length averages = length ds).
  { unfold averages. rewrite running_means_length. exact Hlen. }
  exists w'. repeat split; try assumption.
  - unfold events_where. rewrite Htrace, !filter_app, optimizer_events_of_steps.
    rewrite Hlen, Hlen', Nat.min_id. cbn. rewrite app_nil_r. reflexivity.
  - intros k Hk. unfold averages. rewrite running_means_lookup by lia. reflexivity.
Qed.

(** ** The mode flag *)

Lemma after_set_train {A} mode (k : unit -> M A) (w : World) :
  keeps training (k tt) -> training (snd (bind (set_train mode) k w)) = mode.
Proof. intros Hk. unfold bind, set_train. rewrite Hk. reflexivity. Qed.

Lemma evaluate_mode (ds : Dataset) criterion epoch (w : World) :
  training (snd (evaluate ds criterion epoch w)) = false.
Proof. unfold Script.evaluate. cbv zeta. apply after_set_train. frame. Qed.

Lemma save_checkpoint_mode path : keeps training (save_checkpoint (OptState := OptState) (Seed := Seed) (Params := Params) path).
Proof. frame. Qed.

(** ** One iteration of the epoch loop *)

Section EpochLoop.

Variables imdb_train imdb_valid : Dataset.

Lemma epoch_body_run epoch vars (w : World) :
  exists w1,
    train_one_epoch imdb_train epoch w = (Ok tt, w1) /\
    training w1 = true /\
    epoch_body imdb_train imdb_valid epoch vars w =
    match evaluate imdb_valid loss_fn epoch w1 with
    | (Ok v, w2) =>
        if lt_number v (best_valid_loss vars)
        then (Ok (mkLoopVars v (Some v)),
              log (EvSaveCheckpoint ckpt_path)
                (set_files (<[ckpt_path := params w2]> (files w2)) w2))
        else (Ok (mkLoopVars (best_valid_loss vars) (Some v)), w2)
    | (Raise e, w2) => (Raise e, w2)
    end.
Proof.
  destruct (train_one_epoch_run imdb_train epoch w) as (w1 & Htrain & _ & Hmode & _).
  exists w1. split; [exact Htrain|]. split; [exact Hmode|].
  unfold Script.epoch_body. unfold bind at 1. rewrite Htrain.
  unfold bind at 1. destruct (evaluate imdb_valid loss_fn epoch w1) as [[v|e] w2];
    [|reflexivity].
  destruct (lt_number v (best_valid_loss vars)); reflexivity.
Qed.

Lemma epoch_body_mode epoch vars (w : World) :
  training (snd (epoch_body imdb_train imdb_valid epoch vars w)) = false.
Proof.
  destruct (epoch_body_run epoch vars w) as (w1 & _ & _ & ->).
  pose proof (evaluate_mode imdb_valid loss_fn epoch w1) as Hmode.
  destruct (evaluate imdb_valid loss_fn epoch w1) as [[v|e] w2]; simpl in Hmode;
    [|exact Hmode].
  destruct (lt_number v (best_valid_loss vars)); exact Hmode.
Qed.

Local Abbreviation valid_loss_of_epoch :=
  (valid_loss_of_epoch (OptState := OptState) net loss_fn backward adam accuracy_fn
     astype_int32 imdb_train imdb_valid).
Local Abbreviation earlier_losses :=
  (earlier_losses (OptState := OptState) net loss_fn backward adam accuracy_fn
     astype_int32 imdb_train imdb_valid).
Local Abbreviation run_epochs := (epoch_loop imdb_train imdb_valid).
Local Abbreviation run_epoch := (epoch_body imdb_train imdb_valid).

Lemma bind_ret_r {A} (c : M A) (w : World) : bind c ret w = c w.
Proof. unfold bind, ret. destruct (c w) as [[a|e] w']; reflexivity. Qed.

Lemma epoch_loop_S e (w0 : World) :
  run_epochs (S e) w0 = bind (run_epochs e) (run_epoch e) w0.
Proof.
  unfold Script.epoch_loop. rewrite seq_S, for_each_app. cbn [for_each Nat.add].
  unfold bind at 1 3. destruct (for_each (seq 0 e) _ _ w0) as [[vars|ex] w]; [|reflexivity].
  apply bind_ret_r.
Qed.

Lemma epoch_loop_step e (w0 : World) vars w :
  run_epochs e w0 = (Ok vars, w) -> run_epochs (S e) w0 = run_epoch e vars w.
Proof. intros H. rewrite epoch_loop_S. apply bind_ok, H. Qed.

(** The validation loss of an iteration that completes is what [evaluate]
    returns on the validation set after that epoch's training. *)
Lemma epoch_body_valid_loss epoch vars (w : World) vars' w' :
  run_epoch epoch vars w = (Ok vars', w') ->
  exists w1 v,
    train_one_epoch imdb_train epoch w = (Ok tt, w1) /\
    fst (evaluate imdb_valid loss_fn epoch w1) = Ok v /\
    valid_loss vars' = Some v.
Proof.
  destruct (epoch_body_run epoch vars w) as (w1 & Htrain & _ & ->).
  destruct (evaluate imdb_valid loss_fn epoch w1) as [[v|ex] w2] eqn:Heval; [|discriminate].
  intros Hrun. exists w1, v. split; [exact Htrain|]. split; [rewrite Heval; reflexivity|].
  destruct (lt_number v (best_valid_loss vars)); injection Hrun as <- _; reflexivity.
Qed.

(** What an iteration that completes has done. *)
Lemma epoch_body_ok epoch vars (w : World) vars' w' :
  run_epoch epoch vars w = (Ok vars', w') ->
  exists v w2,
    valid_loss vars' = Some v /\
    best_valid_loss vars' =
      (if lt_number v (best_valid_loss vars) then v else best_valid_loss vars) /\
    files w2 = files w /\
    checkpoint_writes w2 = checkpoint_writes w /\
    w' = (if lt_number v (best_valid_loss vars)
          then log (EvSaveCheckpoint ckpt_path)
                 (set_files (<[ckpt_path := params w2]> (files w2)) w2)
          else w2).
Proof.
  destruct (epoch_body_run epoch vars w) as (w1 & Htrain & _ & ->).
  pose proof (train_one_epoch_keeps_disk imdb_train epoch w) as Hdisk1.
  pose proof (evaluate_keeps_disk imdb_valid loss_fn epoch w1) as Hdisk2.
  rewrite Htrain in Hdisk1. simpl in Hdisk1.
  destruct (evaluate imdb_valid loss_fn epoch w1) as [[v|ex] w2]; [|discriminate].
  simpl in Hdisk2. rewrite Hdisk1 in Hdisk2. injection Hdisk2 as Hfiles Hwrites.
  intros Hrun. exists v, w2.
  destruct (lt_number v (best_valid_loss vars)); injection Hrun as <- <-; auto.
Qed.

Lemma earlier_losses_S (w0 : World) e v :
  valid_loss_of_epoch w0 e = Some v ->
  earlier_losses w0 (S e) = earlier_losses w0 e ++ [v].
Proof.
  intros Hv. unfold Script.earlier_losses. rewrite seq_S, omap_app. simpl.
  rewrite Hv. reflexivity.
Qed.

(** Loop invariant: the tracked best is the minimum of the losses so far. *)
Lemma best_is_minimum (w0 : World) e :
  forall vars w,
    run_epochs e w0 = (Ok vars, w) ->
    is_minimum (best_valid_loss vars) (earlier_losses w0 e) /\
    length (earlier_losses w0 e) = e.
Proof.
  induction e as [|e IH]; intros vars' w' Hrun.
  - injection Hrun as <- <-. split; [|reflexivity].
    split; [discriminate|]. split; [left; reflexivity|]. intros u Hu. inversion Hu.
  - rewrite epoch_loop_S in Hrun. unfold bind in Hrun.
    destruct (run_epochs e w0) as [[vars|ex] w] eqn:Hprefix; [|discriminate].
    destruct (IH vars w eq_refl) as [Hmin Hlen].
    pose proof Hrun as Hrun'.
    apply epoch_body_ok in Hrun as (v & w2 & Hv & Hbest & _).
    assert (Hve : valid_loss_of_epoch w0 e = Some v).
    { unfold Script.valid_loss_of_epoch. rewrite (epoch_loop_step e w0 vars w Hprefix), Hrun'.
      exact Hv. }
    rewrite (earlier_losses_S w0 e v Hve), Hbest. split.
    + apply minimum_step, Hmin.
    + rewrite length_app, Hlen. simpl. lia.
Qed.

(** In Python's words: the tracked best is [min(float('inf'), *earlier)]. *)
Lemma best_is_computed_minimum (w0 : World) e :
  forall vars w,
    run_epochs e w0 = (Ok vars, w) ->
    best_valid_loss vars = minimum (earlier_losses w0 e).
Proof.
  induction e as [|e IH]; intros vars' w' Hrun.
  - injection Hrun as <- <-. reflexivity.
  - rewrite epoch_loop_S in Hrun. unfold bind in Hrun.
    destruct (run_epochs e w0) as [[vars|ex] w] eqn:Hprefix; [|discriminate].
    pose proof Hrun as Hrun'.
    apply epoch_body_ok in Hrun as (v & w2 & Hv & Hbest & _).
    assert (Hve : valid_loss_of_epoch w0 e = Some v).
    { unfold Script.valid_loss_of_epoch. rewrite (epoch_loop_step e w0 vars w Hprefix), Hrun'.
      exact Hv. }
    rewrite (earlier_losses_S w0 e v Hve), minimum_snoc, Hbest, (IH vars w eq_refl).
    reflexivity.
Qed.

Lemma epoch_loop_prefix (w0 : World) n e vars_n w_n :
  run_epochs n w0 = (Ok vars_n, w_n) ->
  e <= n ->
  exists vars w, run_epochs e w0 = (Ok vars, w).
Proof.
  revert vars_n w_n. induction n as [|n IH]; intros vars_n w_n Hrun Hle.
  - replace e with 0 by lia. eauto.
  - destruct (decide (e = S n)) as [->|Hne]; [eauto|].
    rewrite epoch_loop_S in Hrun. unfold bind in Hrun.
    destruct (run_epochs n w0) as [[vars|ex] w] eqn:Hprefix; [|discriminate].
    apply (IH vars w eq_refl). lia.
Qed.

(** C1: in the epoch loop, epoch [e] writes the checkpoint exactly when its
    validation loss, the value [evaluate] returns on the validation set after
    that epoch's training, is strictly below the minimum of the validation
    losses of the earlier epochs, with [float('inf')] as the initial best:
    that minimum, [min(float('inf'), *earlier)], is the tracked best, and
    being below it is being below [float('inf')] and below every earlier
    loss that is a number.  A NaN loss is below nothing and nothing is below
    it: it is never written and never the best.  A write stores the parameters in the one file
    ['./sentiment_analysis.ckpt'], over what it held, and makes the new loss
    the tracked best; without a write the files and the best stay. *)
Theorem checkpoint_iff_improvement (w0 : World) (n e : nat) vars_n w_n :
  run_epochs n w0 = (Ok vars_n, w_n) ->
  e < n ->
  let earlier := earlier_losses w0 e in
  exists vars w vars' w' v w1,
    let wrote :=
      checkpoint_writes w' = checkpoint_writes w ++ [EvSaveCheckpoint ckpt_path] in
    run_epochs e w0 = (Ok vars, w) /\
    run_epochs (S e) w0 = (Ok vars', w') /\
    valid_loss_of_epoch w0 e = Some v /\
    (train_one_epoch imdb_train e w = (Ok tt, w1) /\
     fst (evaluate imdb_valid loss_fn e w1) = Ok v) /\
    length earlier = e /\
    best_valid_loss vars = minimum earlier /\
    is_minimum (minimum earlier) earlier /\
    (wrote <-> lt_number v (minimum earlier) = true) /\
    (wrote <->
     lt_number v Inf = true /\
     forall u, u ∈ earlier -> u <> NaN -> lt_number v u = true) /\
    (wrote ->
       best_valid_loss vars' = v /\
       files w' = <[ckpt_path := params w']> (files w)) /\
    (~ wrote ->
       best_valid_loss vars' = best_valid_loss vars /\
       files w' = files w /\
       checkpoint_writes w' = checkpoint_writes w).
Proof.
  intros Hend Hlt earlier.
  destruct (epoch_loop_prefix w0 n (S e) vars_n w_n Hend) as (vars' & w' & Hrun); [lia|].
  destruct (epoch_loop_prefix w0 n e vars_n w_n Hend) as (vars & w & Hprefix); [lia|].
  destruct (best_is_minimum w0 e vars w Hprefix) as [Hmin Hlen].
  fold earlier in Hmin, Hlen.
  assert (Hve : valid_loss_of_epoch w0 e = valid_loss vars')
    by (unfold Script.valid_loss_of_epoch; rewrite Hrun; reflexivity).
  pose proof Hrun as Hbody.
  rewrite (epoch_loop_step e w0 vars w Hprefix) in Hbody.
  destruct (epoch_body_valid_loss e vars w vars' w' Hbody) as (w1 & v1 & Htrain & Heval & Hv1).
  apply epoch_body_ok in Hbody as (v & w2 & Hv & Hbest & Hfiles & Hwrites & Hw').
  assert (v1 = v) as -> by congruence.
  exists vars, w, vars', w', v, w1. cbv zeta.
  split; [exact Hprefix|]. split; [exact Hrun|].
  rewrite Hve. split; [exact Hv|]. split; [split; assumption|].
  split; [exact Hlen|].
  pose proof (best_is_computed_minimum w0 e vars w Hprefix) as Hcomputed.
  fold earlier in Hcomputed. rewrite <- Hcomputed.
  split; [reflexivity|]. split; [exact Hmin|].
  rewrite <- (below_minimum _ _ v Hmin).
  destruct (lt_number v (best_valid_loss vars)); subst w'.
  - unfold checkpoint_writes in *. rewrite events_where_log. simpl.
    change (events_where is_save_event (set_files ?f w2))
      with (events_where is_save_event w2).
    rewrite Hwrites, Hfiles.
    split; [tauto|]. split; [tauto|]. split; [auto|].
    intros Hno. exfalso. apply Hno. reflexivity.
  - rewrite Hwrites.
    assert (Hne : checkpoint_writes w <> checkpoint_writes w ++ [EvSaveCheckpoint ckpt_path]).
    { intros Heq. apply (f_equal length) in Heq. rewrite length_app in Heq. simpl in Heq. lia. }
    split; [split; [intros H; contradiction | discriminate]|].
    split; [split; [intros H; contradiction | discriminate]|].
    split; [intros H; contradiction | auto].
Qed.

End EpochLoop.

(** C10: [evaluate] leaves the parameters alone but not the model's mode
    flag: it returns with the flag [False]; [train_one_epoch] returns with
    it [True]; writing a checkpoint does not touch it, so an iteration of
    the epoch loop ends in inference mode, until the next [train_one_epoch]. *)
Theorem evaluate_leaves_inference_mode (ds train valid : Dataset) criterion epoch vars
    (w : World) :
  (training (snd (evaluate ds criterion epoch w)) = false /\
   params (snd (evaluate ds criterion epoch w)) = params w) /\
  training (snd (train_one_epoch ds epoch w)) = true /\
  training (snd (save_checkpoint ckpt_path w)) = training w /\
  training (snd (epoch_body train valid epoch vars w)) = false.
Proof.
  split; [split; [apply evaluate_mode | apply evaluate_params]|].
  split.
  { destruct (train_one_epoch_run ds epoch w) as (w' & -> & _ & Hmode & _). exact Hmode. }
  split; [apply save_checkpoint_mode | apply epoch_body_mode].
Qed.

(** * More about the orchestrators *)

(** ** A run of [evaluate], call by call *)

Local Abbreviation evaluate_events := (evaluate_events net accuracy_fn astype_int32).
Local Abbreviation evaluate_seed := (evaluate_seed net).

Lemma evaluate_loop_full criterion (ds : Dataset) :
  forall el ea st (w : World),
    training w = false ->
    exists ea' w',
      for_each ds (evaluate_body net accuracy_fn astype_int32 criterion) (el, ea, st) w =
        (Ok (fold_left number_add (batch_losses criterion (params w) (seed w) ds) el, ea',
             (st + length ds)%nat), w') /\
      trace w' = trace w ++ evaluate_events criterion (params w) (seed w) el ea st ds /\
      seed w' = evaluate_seed (params w) (seed w) ds.
Proof.
  induction ds as [|i ds IH]; intros el ea st w Hmode;
    cbn [for_each Script.batch_losses Script.evaluate_events Script.evaluate_seed length].
  - exists ea, w. rewrite Nat.add_0_r, app_nil_r. auto.
  - unfold bind at 1. rewrite evaluate_body_run by exact Hmode.
    destruct (net false (params w) (seed w) (fst i)) as [predictions s'] eqn:Hnet.
    cbv beta iota zeta.
    match goal with
    | |- context [for_each ds _ (?el1, ?ea1, ?st1) ?w1] =>
        destruct (IH el1 ea1 st1 w1 Hmode) as (ea' & w' & Hloop & Htrace & Hseed)
    end.
    exists ea', w'. rewrite Hloop, Nat.add_succ_r.
    split; [reflexivity|]. split; [|exact Hseed].
    rewrite Htrace. cbn [trace log set_seed params seed]. rewrite <- !app_assoc. reflexivity.
Qed.

Lemma evaluate_run (ds : Dataset) criterion epoch (w : World) :
  exists w',
    evaluate ds criterion epoch w =
      (match ds with
       | [] => Raise ZeroDivisionError
       | _ :: _ => Ok (mean (batch_losses criterion (params w) (seed w) ds))
       end, w') /\
    trace w' =
      trace w ++
      [EvSetTrain false; EvTqdmOpen (get_dataset_size ds); EvTqdmDescription epoch] ++
      evaluate_events criterion (params w) (seed w) (Fin 0) (Fin 0) 0 ds ++
      [EvTqdmClose] /\
    seed w' = evaluate_seed (params w) (seed w) ds.
Proof.
  unfold Script.evaluate, with_tqdm, finally, set_train, emit, get_dataset_size,
    create_tuple_iterator.
  unfold bind at 1 2 3 4.
  match goal with
  | |- context [for_each ds _ (?el1, ?ea1, ?st1) ?w1] =>
      destruct (evaluate_loop_full criterion ds el1 ea1 st1 w1 eq_refl)
        as (ea' & w' & Hloop & Htrace & Hseed)
  end.
  rewrite Hloop. cbn [trace log set_training params seed] in Htrace, Hseed.
  unfold mean, number_sum. rewrite batch_losses_length.
  destruct ds as [|i ds].
  - eexists. split; [reflexivity|]. cbn [snd trace log seed]. rewrite Htrace, Hseed.
    rewrite <- !app_assoc. split; reflexivity.
  - eexists. split; [reflexivity|]. cbn [snd trace log seed]. rewrite Htrace, Hseed.
    rewrite <- !app_assoc. split; reflexivity.
Qed.

Lemma events_where_app f (w w' : World) evs :
  trace w' = trace w ++ evs ->
  events_where f w' = events_where f w ++ filter (fun ev => f ev = true) evs.
Proof. intros Htrace. unfold events_where. rewrite Htrace. apply filter_app. Qed.

Lemma filter_event_cons (f : Event -> bool) ev l :
  filter (fun ev => f ev = true) (ev :: l) =
  if f ev then ev :: filter (fun ev => f ev = true) l
  else filter (fun ev => f ev = true) l.
Proof. rewrite filter_cons. destruct (f ev); case_decide; congruence. Qed.

Lemma evaluate_events_filter f criterion p (ds : Dataset) :
  f (EvTqdmUpdate 1) = true ->
  (forall v, f (EvLoss v) = false) ->
  (forall v, f (EvAccuracy v) = false) ->
  (forall l a, f (EvTqdmPostfix l a) = false) ->
  f (EvForward false) = false ->
  forall s el ea st,
    filter (fun ev => f ev = true) (evaluate_events criterion p s el ea st ds) =
    replicate (length ds) (EvTqdmUpdate 1).
Proof.
  intros Hu Hl Ha Hp Hf. induction ds as [|i ds IH]; intros s el ea st;
    cbn [Script.evaluate_events length replicate]; [reflexivity|].
  destruct (net false p s (fst i)) as [predictions s']. cbv zeta.
  cbn [app]. rewrite !filter_event_cons, Hf, Hl, Ha, Hp, Hu, IH. reflexivity.
Qed.

Lemma evaluate_events_forward criterion p (ds : Dataset) :
  forall s el ea st,
    filter (fun ev => is_forward_event ev = true) (evaluate_events criterion p s el ea st ds) =
    replicate (length ds) (EvForward false).
Proof.
  induction ds as [|i ds IH]; intros s el ea st;
    cbn [Script.evaluate_events length replicate]; [reflexivity|].
  destruct (net false p s (fst i)) as [predictions s']. cbv zeta.
  rewrite filter_app, IH. reflexivity.
Qed.

Lemma step_events_filter (f : Event -> bool) (keep : Event)
    (losses averages : list number) :
  (forall loss avg, filter (fun ev => f ev = true) (step_events loss avg) = [keep]) ->
  filter (fun ev => f ev = true) (concat (zip_with step_events losses averages)) =
  replicate (min (length losses) (length averages)) keep.
Proof.
  intros Hstep. revert averages. induction losses as [|x losses IH]; intros [|a averages];
    try reflexivity.
  cbn [zip_with concat length min replicate]. rewrite filter_app, IH, Hstep. reflexivity.
Qed.

Lemma evaluate_events_last_report criterion p (ds : Dataset) :
  forall s el ea st shown,
    fold_left (fun shown ev =>
                 match ev with
                 | EvTqdmPostfix loss _ => Some loss
                 | _ => shown
                 end) (evaluate_events criterion p s el ea st ds) shown =
    match ds with
    | [] => shown
    | _ :: _ =>
        Some (number_div (fold_left number_add (batch_losses criterion p s ds) el)
                (st + length ds))
    end.
Proof.
  induction ds as [|i ds IH]; intros s el ea st shown;
    cbn [Script.evaluate_events Script.batch_losses length]; [reflexivity|].
  destruct (net false p s (fst i)) as [predictions s']. cbv zeta.
  rewrite fold_left_app, IH. destruct ds as [|j ds].
  - cbn [fold_left app Script.batch_losses length]. rewrite Nat.add_1_r. reflexivity.
  - cbn [length]. rewrite !Nat.add_succ_r. reflexivity.
Qed.

(** X1: on a non-empty dataset the loss [evaluate] returns is the one its
    progress bar showed last. *)
Theorem evaluate_reports_its_result (ds : Dataset) criterion epoch (w : World) :
  ds <> [] ->
  exists v,
    fst (evaluate ds criterion epoch w) = Ok v /\
    last_reported_loss (trace (snd (evaluate ds criterion epoch w))) = Some v.
Proof.
  intros Hne. destruct (evaluate_run ds criterion epoch w) as (w' & Hrun & Htrace & _).
  rewrite Hrun. destruct ds as [|i ds]; [contradiction|].
  eexists. split; [reflexivity|]. cbn [snd]. rewrite Htrace.
  unfold last_reported_loss. rewrite !fold_left_app, evaluate_events_last_report.
  cbn [fold_left]. unfold mean, number_sum. rewrite batch_losses_length. reflexivity.
Qed.

(** X2: both loops open the progress bar with the number of batches as its
    total, advance it by one exactly that many times and close it; [evaluate]
    does so also when it then raises. *)
Theorem progress_bar_runs_to_total (ds : Dataset) criterion epoch (w : World) :
  let bar n := [EvTqdmOpen n] ++ replicate n (EvTqdmUpdate 1) ++ [EvTqdmClose] in
  events_where is_bar_event (snd (train_one_epoch ds epoch w)) =
    events_where is_bar_event w ++ bar (get_dataset_size ds) /\
  events_where is_bar_event (snd (evaluate ds criterion epoch w)) =
    events_where is_bar_event w ++ bar (get_dataset_size ds).
Proof.
  intros bar. split.
  - destruct (train_one_epoch_run ds epoch w) as (w' & -> & _ & _ & Htrace).
    cbn [snd]. rewrite (events_where_app _ _ _ _ Htrace). f_equal.
    rewrite !filter_app, (step_events_filter is_bar_event (EvTqdmUpdate 1))
      by reflexivity.
    rewrite running_means_length, train_losses_length, Nat.min_id. reflexivity.
  - destruct (evaluate_run ds criterion epoch w) as (w' & -> & Htrace & _).
    cbn [snd]. rewrite (events_where_app _ _ _ _ Htrace). f_equal.
    rewrite !filter_app, evaluate_events_filter by reflexivity.
    reflexivity.
Qed.

(** X3: [train_one_epoch] runs one forward pass per batch, each in training
    mode, and [evaluate] one per batch, each in inference mode, whatever
    mode the model was in when they were called. *)
Theorem forward_passes_follow_mode (ds : Dataset) criterion epoch (w : World) :
  events_where is_forward_event (snd (train_one_epoch ds epoch w)) =
    events_where is_forward_event w ++ replicate (length ds) (EvForward true) /\
  events_where is_forward_event (snd (evaluate ds criterion epoch w)) =
    events_where is_forward_event w ++ replicate (length ds) (EvForward false).
Proof.
  split.
  - destruct (train_one_epoch_run ds epoch w) as (w' & -> & _ & _ & Htrace).
    cbn [snd]. rewrite (events_where_app _ _ _ _ Htrace). f_equal.
    rewrite !filter_app, (step_events_filter is_forward_event (EvForward true))
      by reflexivity.
    rewrite running_means_length, train_losses_length, Nat.min_id.
    cbn. rewrite app_nil_r. reflexivity.
  - destruct (evaluate_run ds criterion epoch w) as (w' & -> & Htrace & _).
    cbn [snd]. rewrite (events_where_app _ _ _ _ Htrace). f_equal.
    rewrite !filter_app, evaluate_events_forward.
    cbn. rewrite app_nil_r. reflexivity.
Qed.

(** ** Whole runs of the epoch loop *)

Section RunFacts.

Variables imdb_train imdb_valid : Dataset.

Local Abbreviation valid_loss_of_epoch :=
  (valid_loss_of_epoch (OptState := OptState) net loss_fn backward adam accuracy_fn
     astype_int32 imdb_train imdb_valid).
Local Abbreviation params_of_epoch :=
  (params_of_epoch (OptState := OptState) net loss_fn backward adam accuracy_fn
     astype_int32 imdb_train imdb_valid).
Local Abbreviation earlier_losses :=
  (earlier_losses (OptState := OptState) net loss_fn backward adam accuracy_fn
     astype_int32 imdb_train imdb_valid).
Local Abbreviation run_epochs := (epoch_loop imdb_train imdb_valid).
Local Abbreviation run_epoch := (epoch_body imdb_train imdb_valid).

(** One more completed epoch, seen from the run so far. *)
Lemma epoch_loop_next (w0 : World) e vars' w' :
  run_epochs (S e) w0 = (Ok vars', w') ->
  exists vars w v w2,
    run_epochs e w0 = (Ok vars, w) /\
    valid_loss_of_epoch w0 e = Some v /\
    earlier_losses w0 (S e) = earlier_losses w0 e ++ [v] /\
    length (earlier_losses w0 e) = e /\
    is_minimum (best_valid_loss vars) (earlier_losses w0 e) /\
    best_valid_loss vars' =
      (if lt_number v (best_valid_loss vars) then v else best_valid_loss vars) /\
    files w2 = files w /\
    checkpoint_writes w2 = checkpoint_writes w /\
    w' = (if lt_number v (best_valid_loss vars)
          then log (EvSaveCheckpoint ckpt_path)
                 (set_files (<[ckpt_path := params w2]> (files w2)) w2)
          else w2).
Proof.
  intros Hrun.
  destruct (epoch_loop_prefix imdb_train imdb_valid w0 (S e) e vars' w' Hrun)
    as (vars & w & Hprefix); [lia|].
  destruct (best_is_minimum imdb_train imdb_valid w0 e vars w Hprefix) as [Hmin Hlen].
  pose proof Hrun as Hbody.
  rewrite (epoch_loop_step imdb_train imdb_valid e w0 vars w Hprefix) in Hbody.
  apply epoch_body_ok in Hbody as (v & w2 & Hv & Hbest & Hfiles & Hwrites & Hw').
  assert (Hve : valid_loss_of_epoch w0 e = Some v).
  { unfold Script.valid_loss_of_epoch. rewrite Hrun. exact Hv. }
  exists vars, w, v, w2. split; [exact Hprefix|]. split; [exact Hve|].
  split; [apply earlier_losses_S, Hve|]. auto 10.
Qed.

Lemma earlier_losses_lookup (w0 : World) n :
  forall vars w,
    run_epochs n w0 = (Ok vars, w) ->
    forall j, j < n -> earlier_losses w0 n !! j = valid_loss_of_epoch w0 j.
Proof.
  induction n as [|n IH]; intros vars' w' Hrun j Hj; [lia|].
  destruct (epoch_loop_next w0 n vars' w' Hrun)
    as (vars & w & v & w2 & Hprefix & Hve & Happ & Hlen & _).
  rewrite Happ. destruct (decide (j = n)) as [->|Hne].
  - rewrite Hve. apply list_lookup_middle. symmetry. exact Hlen.
  - rewrite lookup_app_l by lia. apply (IH vars w Hprefix). lia.
Qed.

(** Invariant of the loop: where the tracked best comes from, and what the
    checkpoint file holds. *)
Lemma best_epoch_invariant (w0 : World) e :
  forall vars w,
    run_epochs e w0 = (Ok vars, w) ->
    (best_valid_loss vars = Inf /\
     files w = files w0 /\
     checkpoint_writes w = checkpoint_writes w0 /\
     forall u, u ∈ earlier_losses w0 e -> lt_number u Inf = false) \/
    (exists k,
       earlier_losses w0 e !! k = Some (best_valid_loss vars) /\
       lt_number (best_valid_loss vars) Inf = true /\
       files w !! ckpt_path = params_of_epoch w0 k /\
       is_Some (params_of_epoch w0 k) /\
       (forall u, u ∈ earlier_losses w0 e -> u <> NaN ->
          number_le (best_valid_loss vars) u) /\
       (forall j u, j < k -> earlier_losses w0 e !! j = Some u -> u <> NaN ->
          lt_number (best_valid_loss vars) u = true)).
Proof.
  induction e as [|e IH]; intros vars' w' Hrun.
  - injection Hrun as <- <-. left. repeat split. intros u Hu. inversion Hu.
  - destruct (epoch_loop_next w0 e vars' w' Hrun)
      as (vars & w & v & w2 & Hprefix & Hve & Happ & Hlen & Hmin & Hbest & Hfiles &
          Hwrites & Hw').
    specialize (IH vars w Hprefix). rewrite Hbest, Happ.
    pose proof (below_minimum _ _ v Hmin) as Hbelow.
    destruct (lt_number v (best_valid_loss vars)) eqn:Hlt.
    + destruct (lt_number_not_nan _ _ Hlt) as [Hv _].
      destruct (proj1 Hbelow eq_refl) as [Hinf Hall].
      right. exists e. split; [apply list_lookup_middle; symmetry; exact Hlen|].
      split; [exact Hinf|].
      assert (Hp : params_of_epoch w0 e = Some (params w2)).
      { unfold Script.params_of_epoch. rewrite Hrun, Hw'. reflexivity. }
      rewrite Hp. split; [rewrite Hw'; cbn [files log set_files]; apply lookup_insert_eq|].
      split; [eauto|]. split.
      * intros u [Hu | Hu]%elem_of_app Hnu.
        -- apply lt_number_le, Hall; assumption.
        -- apply list_elem_of_singleton in Hu. subst u. apply number_le_refl, Hv.
      * intros j u Hj Hu Hnu. rewrite lookup_app_l in Hu by lia.
        apply Hall; [|exact Hnu]. apply list_elem_of_lookup. eauto.
    + destruct IH as [(Hb & Hf & Hw & Hnone) | (k & Hk & Hinf & Hfile & Hsome & Hle & Hstrict)].
      * left. split; [exact Hb|]. rewrite Hw', Hfiles, Hwrites.
        split; [exact Hf|]. split; [exact Hw|].
        intros u [Hu | Hu]%elem_of_app; [apply Hnone, Hu|].
        apply list_elem_of_singleton in Hu. subst u. rewrite <- Hb. exact Hlt.
      * pose proof (lookup_lt_Some _ _ _ Hk) as Hklt.
        destruct (lt_number_not_nan _ _ Hinf) as [Hbnan _].
        right. exists k. split; [rewrite lookup_app_l by exact Hklt; exact Hk|].
        split; [exact Hinf|]. split; [rewrite Hw', Hfiles; exact Hfile|].
        split; [exact Hsome|]. split.
        -- intros u [Hu | Hu]%elem_of_app Hnu; [apply Hle; assumption|].
           apply list_elem_of_singleton in Hu. subst u.
           apply not_lt_number_le; assumption.
        -- intros j u Hj Hu Hnu. rewrite lookup_app_l in Hu by lia.
           eapply Hstrict; eassumption.
Qed.

(** X4: after a run of the epoch loop, either no validation loss was ever
    below [float('inf')] (each was NaN or infinite), and then the tracked best
    is still [float('inf')] and nothing was written; or the checkpoint file
    holds the parameters of the best epoch: the earliest epoch whose
    validation loss is the minimum of those of the run that are numbers, and
    that loss is the tracked best. *)
Theorem checkpoint_holds_best_epoch (w0 : World) n vars w :
  run_epochs n w0 = (Ok vars, w) ->
  (best_valid_loss vars = Inf /\
   files w = files w0 /\
   checkpoint_writes w = checkpoint_writes w0 /\
   forall j u, j < n -> valid_loss_of_epoch w0 j = Some u -> lt_number u Inf = false) \/
  (exists k b p,
     k < n /\
     valid_loss_of_epoch w0 k = Some b /\
     best_valid_loss vars = b /\
     lt_number b Inf = true /\
     params_of_epoch w0 k = Some p /\
     files w !! ckpt_path = Some p /\
     (forall j u, j < n -> valid_loss_of_epoch w0 j = Some u -> u <> NaN ->
        number_le b u) /\
     (forall j u, j < k -> valid_loss_of_epoch w0 j = Some u -> u <> NaN ->
        lt_number b u = true)).
Proof.
  intros Hrun.
  pose proof (earlier_losses_lookup w0 n vars w Hrun) as Hlookup.
  destruct (best_epoch_invariant w0 n vars w Hrun)
    as [(Hb & Hf & Hw & Hnone) | (k & Hk & Hinf & Hfile & [p Hp] & Hle & Hstrict)].
  - left. split; [exact Hb|]. split; [exact Hf|]. split; [exact Hw|].
    intros j u Hj Hu. apply Hnone. apply list_elem_of_lookup. exists j.
    rewrite Hlookup by exact Hj. exact Hu.
  - pose proof (lookup_lt_Some _ _ _ Hk) as Hklt.
    destruct (best_is_minimum imdb_train imdb_valid w0 n vars w Hrun) as [_ Hlen].
    rewrite Hlen in Hklt.
    right. exists k, (best_valid_loss vars), p. split; [exact Hklt|].
    split; [rewrite <- Hlookup by exact Hklt; exact Hk|].
    split; [reflexivity|]. split; [exact Hinf|]. split; [exact Hp|].
    split; [rewrite Hfile; exact Hp|]. split.
    + intros j u Hj Hu Hnu. apply Hle; [|exact Hnu]. apply list_elem_of_lookup. exists j.
      rewrite Hlookup by exact Hj. exact Hu.
    + intros j u Hj Hu Hnu. apply (Hstrict j u Hj); [|exact Hnu].
      rewrite Hlookup by lia. exact Hu.
Qed.

Lemma epoch_body_keeps_other_files path epoch vars :
  path <> ckpt_path ->
  keeps (fun w : World => files w !! path) (run_epoch epoch vars).
Proof.
  intros Hpath. unfold Script.epoch_body.
  apply keeps_bind; [unfold Script.train_one_epoch; frame|]. intros _.
  apply keeps_bind; [unfold Script.evaluate; frame|]. intros v.
  destruct (lt_number v (best_valid_loss vars)); [|apply keeps_ret].
  apply keeps_bind; [|intros _; apply keeps_ret].
  intros w. cbn [save_checkpoint snd files log set_files].
  apply lookup_insert_ne. congruence.
Qed.

(** X5: the epoch loop writes no file but the checkpoint: whatever the run
    does, and also when it raises, every other path holds what it held. *)
Theorem epoch_loop_writes_one_file (w0 : World) n path :
  path <> ckpt_path ->
  files (snd (run_epochs n w0)) !! path = files w0 !! path.
Proof.
  intros Hpath. unfold Script.epoch_loop.
  apply (keeps_for_each (fun w : World => files w !! path)).
  intros epoch vars. apply epoch_body_keeps_other_files, Hpath.
Qed.

(** X6: the tracked best validation loss never goes up from one epoch to a
    later one, and the loop writes at most one checkpoint per epoch. *)
Theorem best_valid_loss_never_rises (w0 : World) e' :
  forall e vars' w',
    run_epochs e' w0 = (Ok vars', w') ->
    e <= e' ->
    exists vars w,
      run_epochs e w0 = (Ok vars, w) /\
      number_le (best_valid_loss vars') (best_valid_loss vars) /\
      length (checkpoint_writes w') <= length (checkpoint_writes w) + (e' - e).
Proof.
  induction e' as [|e' IH]; intros e vars' w' Hrun Hle.
  - replace e with 0 by lia. exists vars', w'.
    split; [exact Hrun|]. split; [|lia].
    apply number_le_refl, (best_is_minimum imdb_train imdb_valid w0 0 vars' w' Hrun).
  - destruct (decide (e = S e')) as [->|Hne].
    { exists vars', w'. split; [exact Hrun|]. split; [|lia].
      apply number_le_refl, (best_is_minimum imdb_train imdb_valid w0 (S e') vars' w' Hrun). }
    destruct (epoch_loop_next w0 e' vars' w' Hrun)
      as (vars1 & w1 & v & w2 & Hprefix & _ & _ & _ & Hmin & Hbest & _ & Hwrites & Hw').
    destruct (IH e vars1 w1 Hprefix) as (vars & w & He & Hmono & Hcount); [lia|].
    exists vars, w. split; [exact He|]. split.
    + eapply number_le_trans; [|exact Hmono]. rewrite Hbest.
      destruct (lt_number v (best_valid_loss vars1)) eqn:Hlt;
        [apply lt_number_le, Hlt | apply number_le_refl, Hmin].
    + rewrite Hw'. destruct (lt_number v (best_valid_loss vars1)).
      * unfold checkpoint_writes in *. rewrite events_where_log. simpl.
        change (events_where is_save_event (set_files ?f w2))
          with (events_where is_save_event w2).
        rewrite Hwrites, length_app. simpl. lia.
      * rewrite Hwrites. lia.
Qed.

Lemma epoch_body_optimizer_steps epoch vars (w : World) :
  optimizer_steps (snd (run_epoch epoch vars w)) =
  optimizer_steps w ++ replicate (length imdb_train) EvOptimizer.
Proof.
  destruct (epoch_body_run imdb_train imdb_valid epoch vars w) as (w1 & Htrain & _ & ->).
  destruct (train_one_epoch_run imdb_train epoch w) as (w1' & Htrain' & _ & _ & Htrace).
  rewrite Htrain in Htrain'. injection Htrain' as <-.
  assert (H1 : optimizer_steps w1 =
               optimizer_steps w ++ replicate (length imdb_train) EvOptimizer).
  { unfold optimizer_steps. rewrite (events_where_app _ _ _ _ Htrace). f_equal.
    rewrite !filter_app, optimizer_events_of_steps.
    rewrite running_means_length, train_losses_length, Nat.min_id.
    cbn. rewrite app_nil_r. reflexivity. }
  assert (H2 : keeps (events_where is_optimizer_event) (evaluate imdb_valid loss_fn epoch))
    by (unfold Script.evaluate; frame).
  specialize (H2 w1).
  destruct (evaluate imdb_valid loss_fn epoch w1) as [[v|ex] w2]; cbn [snd] in *.
  - destruct (lt_number v (best_valid_loss vars)); cbn [snd].
    + unfold optimizer_steps in *. rewrite events_where_log. simpl.
      change (events_where is_optimizer_event (set_files ?f w2))
        with (events_where is_optimizer_event w2).
      rewrite app_nil_r, H2. exact H1.
    + unfold optimizer_steps in *. rewrite H2. exact H1.
  - unfold optimizer_steps in *. rewrite H2. exact H1.
Qed.

(** X7: a run of [n] epochs takes [n] times as many optimizer steps as the
    training set has batches; evaluation and checkpointing take none. *)
Theorem epoch_loop_optimizer_steps (w0 : World) n vars w :
  run_epochs n w0 = (Ok vars, w) ->
  optimizer_steps w =
  optimizer_steps w0 ++ replicate (n * get_dataset_size imdb_train) EvOptimizer.
Proof.
  revert vars w. induction n as [|n IH]; intros vars' w' Hrun.
  - injection Hrun as <- <-. simpl. rewrite app_nil_r. reflexivity.
  - destruct (epoch_loop_prefix imdb_train imdb_valid w0 (S n) n vars' w' Hrun)
      as (vars & w & Hprefix); [lia|].
    pose proof (epoch_body_optimizer_steps n vars w) as Hstep.
    rewrite <- (epoch_loop_step imdb_train imdb_valid n w0 vars w Hprefix), Hrun in Hstep.
    cbn [snd] in Hstep. rewrite Hstep, (IH vars w Hprefix), <- app_assoc.
    rewrite <- replicate_add. unfold get_dataset_size. f_equal. f_equal. lia.
Qed.

(** X8: with an empty validation set the epoch loop fails in its first
    epoch: it trains for one epoch, the evaluation raises
    [ZeroDivisionError], no checkpoint is written, and the model is left
    in inference mode with the parameters of that one epoch. *)
Theorem epoch_loop_empty_validation (w0 : World) n :
  exists w,
    epoch_loop imdb_train [] (S n) w0 = (Raise ZeroDivisionError, w) /\
    state_of w = train_final (state_of w0) imdb_train /\
    files w = files w0 /\
    checkpoint_writes w = checkpoint_writes w0 /\
    training w = false.
Proof.
  unfold Script.epoch_loop. cbn [seq for_each]. unfold bind at 1.
  destruct (epoch_body_run imdb_train [] 0 (mkLoopVars Inf None) w0) as (w1 & Htrain & _ & ->).
  destruct (train_one_epoch_run imdb_train 0 w0) as (w1' & Htrain' & Hstate & _ & _).
  rewrite Htrain in Htrain'. injection Htrain' as <-.
  pose proof (train_one_epoch_keeps_disk imdb_train 0 w0) as Hdisk1.
  rewrite Htrain in Hdisk1. cbn [snd] in Hdisk1.
  pose proof (evaluate_keeps_disk [] loss_fn 0 w1) as Hdisk2.
  pose proof (evaluate_keeps_persistent [] loss_fn 0 w1) as Hkeep.
  pose proof (evaluate_mode [] loss_fn 0 w1) as Hmode.
  destruct (evaluate_run [] loss_fn 0 w1) as (w2 & Hrun & _ & Hseed).
  rewrite Hrun in *. cbn [snd Script.evaluate_seed] in *.
  exists w2. split; [reflexivity|].
  injection Hkeep as Hp Ho _. rewrite Hdisk1 in Hdisk2. injection Hdisk2 as Hf Hw.
  split; [|auto]. rewrite <- Hstate. unfold state_of. rewrite Hp, Ho, Hseed. reflexivity.
Qed.

End RunFacts.

(** ** Splitting an epoch *)

Lemma train_final_app st (ds1 ds2 : Dataset) :
  train_final st (ds1 ++ ds2) = train_final (train_final st ds1) ds2.
Proof.
  revert st. induction ds1 as [|i ds1 IH]; intros st; [reflexivity|].
  cbn [app Script.train_final]. apply IH.
Qed.

Lemma train_losses_app st (ds1 ds2 : Dataset) :
  train_losses st (ds1 ++ ds2) =
  train_losses st ds1 ++ train_losses (train_final st ds1) ds2.
Proof.
  revert st. induction ds1 as [|i ds1 IH]; intros st; [reflexivity|].
  cbn [app Script.train_losses Script.train_final].
  destruct (optimization_step st i) as [loss st']. cbn [snd app]. f_equal. apply IH.
Qed.

(** X9: training on the batches [ds1 ++ ds2] in one call leaves the
    parameters, the optimizer state and the random state as two calls do,
    on [ds1] and then on [ds2], and measures the same batch losses. *)
Theorem train_one_epoch_splits (ds1 ds2 : Dataset) epoch epoch1 epoch2 (w : World) :
  let w1 := snd (train_one_epoch ds1 epoch1 w) in
  state_of (snd (train_one_epoch (ds1 ++ ds2) epoch w)) =
    state_of (snd (train_one_epoch ds2 epoch2 w1)) /\
  train_losses (state_of w) (ds1 ++ ds2) =
    train_losses (state_of w) ds1 ++ train_losses (state_of w1) ds2.
Proof.
  intros w1.
  destruct (train_one_epoch_run (ds1 ++ ds2) epoch w) as (w' & -> & Hst & _).
  destruct (train_one_epoch_run ds1 epoch1 w) as (w1' & Hrun1 & Hst1 & _).
  assert (Hw1 : w1 = w1') by (unfold w1; rewrite Hrun1; reflexivity).
  destruct (train_one_epoch_run ds2 epoch2 w1) as (w2 & -> & Hst2 & _).
  cbn [snd]. rewrite Hst, Hst2, Hw1, Hst1. split.
  - apply train_final_app.
  - apply train_losses_app.
Qed.

End OrchestrationFacts.

(** ** The accuracy is for display only *)

Section AccuracyFacts.

Import Script.

Context {Params OptState Seed Data Label Logits : Type}.

Variable net : bool -> Params -> Seed -> Data -> Logits * Seed.
Variables accuracy_fn accuracy_fn' : Logits -> Label -> number.
Variable astype_int32 : Label -> Label.

(** X10: [evaluate] computes the accuracy and shows it, and that is all:
    with another accuracy function it returns the same loss and leaves the
    same mode flag, parameters, optimizer state, random state and files. *)
Theorem evaluate_ignores_accuracy (ds : Dataset) criterion epoch
    (w : @World Params OptState Seed) :
  let r := evaluate net accuracy_fn astype_int32 ds criterion epoch w in
  let r' := evaluate net accuracy_fn' astype_int32 ds criterion epoch w in
  fst r = fst r' /\
  training (snd r) = training (snd r') /\
  state_of (snd r) = state_of (snd r') /\
  files (snd r) = files (snd r').
Proof.
  intros r r'. unfold r, r'.
  split; [rewrite !evaluate_result; reflexivity|].
  split; [rewrite !evaluate_mode; reflexivity|].
  pose proof (evaluate_keeps_persistent net accuracy_fn astype_int32 ds criterion epoch w)
    as Hk.
  pose proof (evaluate_keeps_persistent net accuracy_fn' astype_int32 ds criterion epoch w)
    as Hk'.
  pose proof (evaluate_keeps_disk net accuracy_fn astype_int32 ds criterion epoch w) as Hd.
  pose proof (evaluate_keeps_disk net accuracy_fn' astype_int32 ds criterion epoch w) as Hd'.
  destruct (evaluate_run net accuracy_fn astype_int32 ds criterion epoch w)
    as (w1 & Hrun & _ & Hseed).
  destruct (evaluate_run net accuracy_fn' astype_int32 ds criterion epoch w)
    as (w1' & Hrun' & _ & Hseed').
  rewrite Hrun in *. rewrite Hrun' in *. cbn [snd] in *.
  injection Hk as Hp Ho _. injection Hk' as Hp' Ho' _.
  injection Hd as Hf _. injection Hd' as Hf' _.
  unfold state_of. rewrite Hp, Hp', Ho, Ho', Hseed, Hseed', Hf, Hf'. auto.
Qed.

End AccuracyFacts.

(** * Facts about data preparation *)

Section DataPrepFacts.

Import DataPrep.

Variable tokenizer : string -> list string.
Variable vocab : string -> nat.
Variable Lookup : (string -> nat) -> string -> list string -> list nat.

Local Abbreviation pad_op := (pad_op vocab).
Local Abbreviation text_ops := (text_ops tokenizer vocab Lookup).
Local Abbreviation map_imdb := (map_imdb tokenizer vocab Lookup).

Lemma PadTransform_length n pad (ids : list nat) : length (PadTransform n pad ids) = n.
Proof.
  unfold PadTransform. rewrite length_app, length_take, length_replicate. lia.
Qed.

Lemma PadTransform_long n pad (ids : list nat) :
  n <= length ids -> PadTransform n pad ids = take n ids.
Proof.
  intros Hlen. unfold PadTransform.
  replace (n - length ids) with 0 by lia. apply app_nil_r.
Qed.

Lemma PadTransform_short n pad (ids : list nat) :
  length ids <= n -> PadTransform n pad ids = ids ++ replicate (n - length ids) pad.
Proof. intros Hlen. unfold PadTransform. rewrite take_ge by exact Hlen. reflexivity. Qed.

(** C6: padding a token-id sequence shorter than the maximum length (256)
    gives a sequence of exactly that length that starts with the original
    sequence and continues with the id of ['<pad>'] only. *)
Theorem pad_op_pads_short (ids : list nat) :
  length ids < max_length ->
  let padded := pad_op ids in
  max_length = 256 /\
  length padded = max_length /\
  take (length ids) padded = ids /\
  drop (length ids) padded = replicate (max_length - length ids) (vocab "<pad>") /\
  (forall i, length ids <= i < max_length -> padded !! i = Some (vocab "<pad>")).
Proof.
  intros Hshort padded. unfold padded, DataPrep.pad_op.
  rewrite PadTransform_short by lia.
  split; [reflexivity|]. split; [rewrite length_app, length_replicate; lia|].
  split; [apply take_app_length|]. split; [apply drop_app_length|].
  intros i Hi. rewrite lookup_app_r by lia. apply lookup_replicate_2. lia.
Qed.

Lemma map_imdb_lengths (imdb : list (Row string)) :
  Forall (fun row => length (text row) = max_length) (map_imdb imdb).
Proof.
  unfold DataPrep.map_imdb, map_text. apply Forall_fmap, Forall_forall.
  intros row _. simpl. apply PadTransform_length.
Qed.

End DataPrepFacts.

(** * Facts about the model *)

Section NetFacts.

Import Net.

Lemma result_bind_ok {A B} (f : A -> result B) (x : A) : Ok x ≫= f = f x.
Proof. reflexivity. Qed.

Lemma index_from_end_ok {A} k (l : list A) :
  1 <= k <= length l ->
  exists x, index_from_end k l = Ok x /\ l !! (length l - k) = Some x.
Proof.
  intros Hk. unfold index_from_end. rewrite decide_True by exact Hk.
  destruct (lookup_lt_is_Some_2 l (length l - k)) as [x Hx]; [lia|].
  exists x. rewrite Hx. auto.
Qed.

Lemma index_from_end_short {A} k (l : list A) :
  length l < k -> index_from_end k l = Raise IndexError.
Proof. intros Hk. unfold index_from_end. rewrite decide_False by lia. reflexivity. Qed.

Lemma zip_with_app_widths {A} c1 c2 (a b : list (list A)) :
  Forall (has_shape1 c1) a -> Forall (has_shape1 c2) b ->
  Forall (has_shape1 (c1 + c2)) (zip_with app a b).
Proof.
  intros Ha. revert b. induction Ha as [|x a Hx Ha IH]; intros b Hb; [constructor|].
  destruct Hb as [|y b Hy Hb]; [constructor|]. simpl. constructor; [|apply IH, Hb].
  unfold has_shape1 in *. rewrite length_app. lia.
Qed.

Lemma concat_axis1_shape r c1 c2 (a b : Tensor2) :
  has_shape2 r c1 a -> has_shape2 r c2 b ->
  exists h, concat_axis1 a b = Ok h /\ h = zip_with app a b /\ has_shape2 r (c1 + c2) h.
Proof.
  intros [Hla Ha] [Hlb Hb]. unfold concat_axis1.
  rewrite decide_True by congruence. eexists. split; [reflexivity|]. split; [reflexivity|].
  split; [|apply zip_with_app_widths; assumption].
  rewrite length_zip_with. lia.
Qed.

Variable Glove : Type.
Variable _embed_dim : Glove -> nat.
Variable embedding_call : Glove -> list (list nat) -> Tensor3.
Variable lstm_call : StaticLSTM.t -> Tensor3 -> result (Tensor3 * (Tensor3 * Tensor3)).
Variable dense_call : Dense.t -> Tensor2 -> result Tensor2.

Local Abbreviation RNN_init := (RNN_init Glove _embed_dim).
Local Abbreviation construct := (construct Glove embedding_call lstm_call dense_call).
Local Abbreviation model := (model Glove _embed_dim).

(** The encoder is built for inputs as wide as the embedding's vectors. *)
Lemma RNN_init_input_size emb hidden_dim output_dim n_layers bidir :
  StaticLSTM.input_size (rnn Glove (RNN_init emb hidden_dim output_dim n_layers bidir)) =
  _embed_dim emb.
Proof. reflexivity. Qed.

(** Each step of [construct], for any model [RNN.__init__] builds whose
    stacked hidden state has at least two layers-times-directions. *)
Lemma construct_steps (emb : Glove) (hidden_dim output_dim n_layers : nat) (bidir : bool)
    (inputs : list (list nat)) (b l : nat) :
  embedding_contract Glove _embed_dim embedding_call ->
  lstm_contract lstm_call ->
  dense_contract dense_call ->
  has_shape2 b l inputs ->
  1 <= l ->
  2 <= (if bidir then 2 else 1) * n_layers ->
  let self := RNN_init emb hidden_dim output_dim n_layers bidir in
  exists out hidden cell h_fwd h_bwd logits,
    lstm_call (rnn Glove self) (embedding_call emb inputs) = Ok (out, (hidden, cell)) /\
    hidden !! (length hidden - 2) = Some h_fwd /\
    hidden !! (length hidden - 1) = Some h_bwd /\
    has_shape2 b (hidden_dim * 2) (zip_with app h_fwd h_bwd) /\
    dense_call (fc Glove self) (zip_with app h_fwd h_bwd) = Ok logits /\
    construct self inputs = Ok logits /\
    has_shape2 b output_dim logits.
Proof.
  intros Hemb Hlstm Hdense Hin Hl Hstack self.
  pose proof (Hemb emb inputs b l Hin) as Hembedded.
  assert (Hlayers : 1 <= n_layers) by (destruct bidir; lia).
  destruct (Hlstm (rnn Glove self) (embedding_call emb inputs) b l eq_refl Hlayers Hl
              Hembedded)
    as (out & hidden & cell & Hcall & Hlen & Hstates).
  assert (Hlen2 : 2 <= length hidden) by (rewrite Hlen; exact Hstack).
  change (Forall (has_shape2 b hidden_dim) hidden) in Hstates.
  destruct (index_from_end_ok 2 hidden) as (h_fwd & Hidx2 & Hfwd); [lia|].
  destruct (index_from_end_ok 1 hidden) as (h_bwd & Hidx1 & Hbwd); [lia|].
  pose proof (Forall_lookup_1 _ _ _ _ Hstates Hfwd) as Hsfwd.
  pose proof (Forall_lookup_1 _ _ _ _ Hstates Hbwd) as Hsbwd.
  destruct (concat_axis1_shape b hidden_dim hidden_dim h_fwd h_bwd Hsfwd Hsbwd)
    as (hcat & Hcat & -> & Hscat).
  replace (hidden_dim + hidden_dim) with (hidden_dim * 2) in Hscat by lia.
  destruct (Hdense (fc Glove self) (zip_with app h_fwd h_bwd) b Hscat)
    as (logits & Hfc & Hlogits).
  exists out, hidden, cell, h_fwd, h_bwd, logits.
  repeat split; try assumption; try apply Hscat; try apply Hlogits.
  unfold Net.construct. cbv zeta.
  change (embedding Glove self) with emb. unfold Tensor3, Tensor2 in *.
  rewrite Hcall, result_bind_ok. cbv beta iota.
  rewrite Hidx2, result_bind_ok, Hidx1, result_bind_ok, Hcat, result_bind_ok, Hfc.
  reflexivity.
Qed.

(** C8: on a batch of [b] padded sequences, the forward pass of the
    notebook's model returns logits of shape [(b, 2)]: the hidden states at
    positions [-2] and [-1] of the stack (the last layer's two directions),
    each [(b, 256)], are concatenated into [(b, 512)] and passed through
    the dense head, whose output width is the number of classes. *)
Theorem construct_logits_shape (emb : Glove) (inputs : list (list nat)) (b : nat) :
  embedding_contract Glove _embed_dim embedding_call ->
  lstm_contract lstm_call ->
  dense_contract dense_call ->
  has_shape2 b DataPrep.max_length inputs ->
  exists out hidden cell h_fwd h_bwd logits,
    lstm_call (rnn Glove (model emb)) (embedding_call emb inputs) = Ok (out, (hidden, cell)) /\
    hidden !! (length hidden - 2) = Some h_fwd /\
    hidden !! (length hidden - 1) = Some h_bwd /\
    has_shape2 b (2 * hidden_size) (zip_with app h_fwd h_bwd) /\
    dense_call (fc Glove (model emb)) (zip_with app h_fwd h_bwd) = Ok logits /\
    construct (model emb) inputs = Ok logits /\
    has_shape2 b output_size logits /\
    output_size = 2.
Proof.
  intros Hemb Hlstm Hdense Hin.
  destruct (construct_steps emb hidden_size output_size num_layers bidirectional
              inputs b DataPrep.max_length Hemb Hlstm Hdense Hin)
    as (out & hidden & cell & h_fwd & h_bwd & logits & H1 & H2 & H3 & H4 & H5 & H6 & H7).
  { unfold DataPrep.max_length. lia. }
  { simpl. lia. }
  exists out, hidden, cell, h_fwd, h_bwd, logits.
  rewrite (Nat.mul_comm 2 hidden_size). auto 10.
Qed.

(** X14: [construct] reads the last two entries of the stacked hidden
    state.  A model [RNN.__init__] builds with layers times directions at
    least two runs forward and returns [(b, output_dim)] logits, also when
    unidirectional; with a single unidirectional layer it raises
    [IndexError]; and when the LSTM itself raises, as the framework does for
    a stack of no layers, [construct] raises the same exception. *)
Theorem construct_needs_two_states (emb : Glove) (hidden_dim output_dim n_layers : nat)
    (bidir : bool) (inputs : list (list nat)) (b l : nat) :
  embedding_contract Glove _embed_dim embedding_call ->
  lstm_contract lstm_call ->
  dense_contract dense_call ->
  has_shape2 b l inputs ->
  1 <= l ->
  let self := RNN_init emb hidden_dim output_dim n_layers bidir in
  let states := (if bidir then 2 else 1) * n_layers in
  (2 <= states ->
   exists logits, construct self inputs = Ok logits /\ has_shape2 b output_dim logits) /\
  (states = 1 -> construct self inputs = Raise IndexError) /\
  (forall e,
     lstm_call (rnn Glove self) (embedding_call emb inputs) = Raise e ->
     construct self inputs = Raise e).
Proof.
  intros Hemb Hlstm Hdense Hin Hl self states. split; [|split].
  - intros Hstates.
    destruct (construct_steps emb hidden_dim output_dim n_layers bidir inputs b l
                Hemb Hlstm Hdense Hin Hl Hstates)
      as (out & hidden & cell & h_fwd & h_bwd & logits & _ & _ & _ & _ & _ & Hrun & Hshape).
    exists logits. split; assumption.
  - intros Hstates.
    pose proof (Hemb emb inputs b l Hin) as Hembedded.
    assert (Hlayers : 1 <= n_layers) by (subst states; destruct bidir; lia).
    destruct (Hlstm (rnn Glove self) (embedding_call emb inputs) b l eq_refl Hlayers Hl
                Hembedded)
      as (out & hidden & cell & Hcall & Hlen & _).
    change (length hidden = states) in Hlen.
    unfold Net.construct. cbv zeta. change (embedding Glove self) with emb.
    unfold Tensor3, Tensor2 in *. rewrite Hcall, result_bind_ok. cbv beta iota.
    rewrite (index_from_end_short 2 hidden) by lia. reflexivity.
  - intros e Hcall.
    unfold Net.construct. cbv zeta. change (embedding Glove self) with emb.
    unfold Tensor3, Tensor2 in *. rewrite Hcall. reflexivity.
Qed.

(** C7: every example the pipeline maps has a token-id sequence of exactly
    the maximum length, short ones by padding and long ones by truncation,
    so that any examples batched together form a [(b, max_length)] input;
    and the encoder is constructed with the embedding's dimensionality as
    its input width. *)
Theorem pipeline_shapes_agree
    (tokenizer : string -> list string) (vocab : string -> nat)
    (Lookup : (string -> nat) -> string -> list string -> list nat)
    (imdb : list (DataPrep.Row string)) (ids : list nat)
    (emb : Glove) (hidden_dim output_dim n_layers : nat) (bidir : bool) :
  let mapped := DataPrep.map_imdb tokenizer vocab Lookup imdb in
  Forall (fun row => length (DataPrep.text row) = DataPrep.max_length) mapped /\
  (forall batch : list (DataPrep.Row (list nat)),
     batch ⊆ mapped ->
     has_shape2 (length batch) DataPrep.max_length (DataPrep.text <$> batch)) /\
  DataPrep.pad_op vocab ids =
    (if decide (length ids <= DataPrep.max_length)
     then ids ++ replicate (DataPrep.max_length - length ids) (vocab "<pad>")
     else take DataPrep.max_length ids) /\
  StaticLSTM.input_size (rnn Glove (RNN_init emb hidden_dim output_dim n_layers bidir)) =
    _embed_dim emb.
Proof.
  intros mapped.
  pose proof (map_imdb_lengths tokenizer vocab Lookup imdb) as Hmapped.
  fold mapped in Hmapped.
  split; [exact Hmapped|]. split; [|split; [|reflexivity]].
  - intros batch Hsub. split; [apply length_fmap|].
    apply Forall_fmap, Forall_forall. intros row Hrow.
    rewrite Forall_forall in Hmapped. apply Hmapped, Hsub, Hrow.
  - unfold DataPrep.pad_op. case_decide.
    + apply PadTransform_short. assumption.
    + apply PadTransform_long. lia.
Qed.

End NetFacts.

(** * Facts about weight initialization *)

Section InitFacts.

Import WeightInit.

Context {T DType : Type}.

Implicit Types (store : gmap ParamId (Param T DType)) (param : ParamId).

Lemma prefix_spec pat s : String.prefix pat s = true <-> exists post, s = (pat ++ post)%string.
Proof.
  revert s. induction pat as [|a pat IH]; intros s.
  - split; [intros _; exists s; reflexivity | intros _; destruct s; reflexivity].
  - destruct s as [|b s]; simpl.
    { split; [discriminate | intros [post H]; discriminate]. }
    destruct (Ascii.ascii_dec a b) as [Heq|Hne].
    + rewrite IH. subst b. split; intros [post H]; exists post.
      * rewrite H. reflexivity.
      * injection H as H. exact H.
    + split; [discriminate|]. intros [post H]. injection H as H1 H2. congruence.
Qed.

(** [contains] is the substring test. *)
Lemma contains_spec pat s :
  contains pat s = true <-> exists pre post, s = (pre ++ pat ++ post)%string.
Proof.
  induction s as [|b s IH]; cbn [contains].
  - rewrite orb_false_r, prefix_spec. split.
    + intros [post H]. exists ""%string, post. exact H.
    + intros ([|c pre] & post & H); [exists post; exact H | discriminate].
  - rewrite orb_true_iff, prefix_spec, IH. split.
    + intros [[post H] | (pre & post & H)].
      * exists ""%string, post. exact H.
      * exists (String b pre), post. simpl. rewrite H. reflexivity.
    + intros ([|c pre] & post & H).
      * left. exists post. exact H.
      * right. exists pre, post. simpl in H. injection H as _ H. exact H.
Qed.

Lemma reinitialize_other init param param' store :
  param <> param' -> reinitialize init param' store !! param = store !! param.
Proof.
  intros Hne. unfold reinitialize. rewrite lookup_alter_ne by congruence. reflexivity.
Qed.

Lemma initialize_named_other store np param :
  (contains "bias" (fst np) || contains "weight" (fst np) = true -> param <> snd np) ->
  initialize_named store np !! param = store !! param.
Proof.
  destruct np as [name param']. simpl. intros Hne.
  destruct (contains "bias" name); [apply reinitialize_other; auto|].
  destruct (contains "weight" name); [apply reinitialize_other; auto | reflexivity].
Qed.

Lemma initialize_all_named_other pn : forall store param,
  param ∉ snd <$> filter (fun np => contains "bias" (fst np) || contains "weight" (fst np) = true) pn ->
  fold_left initialize_named pn store !! param = store !! param.
Proof.
  induction pn as [|np pn IH]; intros store param Hnot; [reflexivity|].
  cbn [fold_left]. rewrite filter_cons in Hnot. rewrite IH.
  - apply initialize_named_other. intros Hnamed Heq.
    rewrite decide_True in Hnot by exact Hnamed. apply Hnot. subst param. left.
  - case_decide; [|exact Hnot]. intros Hin. apply Hnot. right. exact Hin.
Qed.

Lemma initialize_weights_other m store param :
  param ∉ targets m -> initialize_weights m store !! param = store !! param.
Proof.
  destruct m as [weight bias | pn | pn]; simpl; intros Hnot.
  - rewrite !reinitialize_other; [reflexivity | |]; intros ->; apply Hnot;
      [left | right; left].
  - apply initialize_all_named_other, Hnot.
  - reflexivity.
Qed.

(** X11: [model.apply(initialize_weights)] leaves alone every parameter
    that is neither the weight or bias of a dense cell nor listed by an LSTM
    cell under a name with ['bias'] or ['weight'] in it; so the pretrained
    embedding table is kept. *)
Theorem initialize_weights_keeps_the_rest (cells : list Cell) store param :
  param ∉ concat (targets <$> cells) ->
  apply initialize_weights cells store !! param = store !! param.
Proof.
  unfold apply. revert store. induction cells as [|m cells IH]; intros store Hnot;
    [reflexivity|].
  cbn [fold_left]. cbn [fmap list_fmap concat] in Hnot.
  apply not_elem_of_app in Hnot as [Hm Hcells].
  rewrite IH by exact Hcells. apply initialize_weights_other, Hm.
Qed.

Lemma reinitialized_from_refl (p : Param T DType) : reinitialized_from p p.
Proof. unfold reinitialized_from. auto. Qed.

Lemma reinitialize_from init param store0 store :
  (forall i, option_Forall2 reinitialized_from (store0 !! i) (store !! i)) ->
  forall i, option_Forall2 reinitialized_from (store0 !! i) (reinitialize init param store !! i).
Proof.
  intros H i. destruct (decide (i = param)) as [->|Hne];
    [|rewrite reinitialize_other by exact Hne; apply H].
  unfold reinitialize. rewrite lookup_alter_eq. specialize (H param).
  destruct H as [p0 p (Hs & Hd & _)|]; constructor.
  unfold reinitialized_from, set_data. simpl. rewrite Hs, Hd. eauto.
Qed.

Lemma initialize_weights_from m store0 store :
  (forall i, option_Forall2 reinitialized_from (store0 !! i) (store !! i)) ->
  forall i, option_Forall2 reinitialized_from (store0 !! i) (initialize_weights m store !! i).
Proof.
  destruct m as [weight bias | pn | pn]; simpl; intros H.
  - apply reinitialize_from, reinitialize_from, H.
  - revert store H. induction pn as [|[name param] pn IH]; intros store H; [exact H|].
    cbn [fold_left]. apply IH. unfold initialize_named.
    destruct (contains "bias" name); [apply reinitialize_from, H|].
    destruct (contains "weight" name); [apply reinitialize_from, H | exact H].
  - exact H.
Qed.

(** X12: [model.apply(initialize_weights)] creates and drops no parameter
    and changes no shape or dtype: each parameter ends as it was or holding
    an initializer asked for at the parameter's own shape and dtype. *)
Theorem initialize_weights_keeps_shapes (cells : list Cell) store param :
  option_Forall2 reinitialized_from
    (store !! param) (apply initialize_weights cells store !! param).
Proof.
  unfold apply.
  assert (Hgen : forall store',
            (forall i, option_Forall2 reinitialized_from (store !! i) (store' !! i)) ->
            forall i, option_Forall2 reinitialized_from (store !! i)
                        (fold_left (fun st m => initialize_weights m st) cells store' !! i)).
  { induction cells as [|m cells IH]; intros store' H; [exact H|].
    cbn [fold_left]. apply IH, initialize_weights_from, H. }
  apply Hgen. intros i. destruct (store !! i); constructor. apply reinitialized_from_refl.
Qed.

Lemma initialize_named_same store name param :
  initialize_named store (name, param) !! param =
  initialized_by_name name <$> store !! param.
Proof.
  unfold initialize_named, initialized_by_name, reinitialize.
  destruct (contains "bias" name); [apply lookup_alter_eq|].
  destruct (contains "weight" name); [apply lookup_alter_eq|].
  destruct (store !! param); reflexivity.
Qed.

(** X13: in an LSTM cell whose listed parameters are distinct objects, a
    parameter with ['bias'] in its name ends zero-initialized, one with
    ['weight'] but not ['bias'] ends orthogonally initialized, and any other
    keeps its data; shape and dtype are the parameter's own. *)
Theorem initialize_weights_lstm_by_name (pn : list (string * ParamId)) store name param :
  NoDup (snd <$> pn) ->
  (name, param) ∈ pn ->
  initialize_weights (StaticLSTM pn) store !! param =
  initialized_by_name name <$> store !! param.
Proof.
  simpl. revert store. induction pn as [|[name0 param0] pn IH]; intros store Hnodup Hin.
  - inversion Hin.
  - cbn [fmap list_fmap snd] in Hnodup. apply NoDup_cons in Hnodup as [Hfresh Hnodup].
    cbn [fold_left]. apply elem_of_cons in Hin as [Heq | Hin].
    + injection Heq as <- <-.
      rewrite initialize_all_named_other; [apply initialize_named_same|].
      intros Hin. apply Hfresh. apply list_elem_of_fmap in Hin as (np & -> & Hnp).
      apply list_elem_of_fmap_2. apply list_elem_of_filter in Hnp as [_ Hnp]. exact Hnp.
    + rewrite IH by assumption. f_equal. apply initialize_named_other.
      intros _ ->. apply Hfresh. simpl.
      apply (list_elem_of_fmap_2 snd pn (name, param0)), Hin.
Qed.

End InitFacts.

(** * Worked instances *)

Lemma toy_dropout_off : Script.dropout_off_in_inference Toy.net.
Proof. intros p s1 s2 d. reflexivity. Qed.

Lemma toy_embedding_contract :
  Net.embedding_contract nat Toy._embed_dim Toy.embedding_call.
Proof.
  intros emb inputs b l [Hlen Hrows]. unfold Toy.embedding_call. split.
  - rewrite length_fmap. exact Hlen.
  - apply Forall_fmap. eapply Forall_impl; [exact Hrows|]. intros row Hrow. simpl. split.
    + rewrite length_fmap. exact Hrow.
    + apply Forall_fmap, Forall_forall. intros x _. simpl. apply length_replicate.
Qed.

Lemma toy_lstm_contract : Net.lstm_contract Toy.lstm_call.
Proof.
  intros cfg x b l _ Hlayers _ [Hlen _]. unfold Toy.lstm_call.
  destruct (Nat.eqb_spec (Net.StaticLSTM.num_layers cfg) 0) as [Hzero|_]; [lia|].
  do 3 eexists.
  split; [reflexivity|]. split; [apply length_replicate|].
  apply Forall_replicate. split; [rewrite length_replicate; exact Hlen|].
  apply Forall_replicate, length_replicate.
Qed.

Lemma toy_dense_contract : Net.dense_contract Toy.dense_call.
Proof.
  intros d x b [Hlen Hrows]. unfold Toy.dense_call.
  assert (Hcheck : forallb (fun row => length row =? Net.Dense.in_channels d) x = true).
  { apply forallb_forall. intros row Hrow. apply Nat.eqb_eq.
    rewrite Forall_forall in Hrows. apply Hrows, list_elem_of_In, Hrow. }
  rewrite Hcheck. eexists. split; [reflexivity|]. split.
  - rewrite length_fmap. exact Hlen.
  - apply Forall_fmap, Forall_forall. intros row _. simpl. apply length_replicate.
Qed.

(** ** The script on the toy instance *)

Example toy_evaluate_value :
  fst (Toy.evaluate Toy.valid_data Toy.loss_fn 0 Toy.world0) = Ok (Fin (41 # 12)).
Proof. reflexivity. Qed.

Example toy_evaluate_empty :
  fst (Toy.evaluate [] Toy.loss_fn 0 Toy.world0) = Raise ZeroDivisionError /\
  Script.trace (snd (Toy.evaluate [] Toy.loss_fn 0 Toy.world0)) =
    [EvSetTrain false; EvTqdmOpen 0; EvTqdmDescription 0; EvTqdmClose].
Proof. split; reflexivity. Qed.

Example toy_train_trace :
  Script.trace (snd (Toy.train_one_epoch Toy.train_data 3 Toy.world0)) =
    [EvSetTrain true; EvTqdmOpen 2; EvTqdmDescription 3;
     EvForward true; EvLoss (Fin (400 # 400)); EvBackward; EvOptimizer;
     EvTqdmPostfix (Fin (400 # 400)) None; EvTqdmUpdate 1;
     EvForward true; EvLoss (Fin (24025 # 10000)); EvBackward; EvOptimizer;
     EvTqdmPostfix (Fin (13610000 # 8000000)) None; EvTqdmUpdate 1;
     EvTqdmClose] /\
  Script.state_of (snd (Toy.train_one_epoch Toy.train_data 3 Toy.world0)) =
    ((91 # 50)%Q, 2, 2).
Proof. split; vm_compute; reflexivity. Qed.

(** Over the notebook's five epochs the toy validation loss falls twice and
    then rises: two checkpoint writes, and the file holds the parameters of
    the second epoch, not the final ones. *)
Example toy_checkpoints :
  Toy.reduced <$> Toy.earlier_losses 3 =
    [Fin (1107 # 10000); Fin (34481 # 1171875); Fin (604254761 # 11718750000)] /\
  Script.checkpoint_writes (Toy.world_after Script.num_epochs) =
    [EvSaveCheckpoint Script.ckpt_path; EvSaveCheckpoint Script.ckpt_path] /\
  Script.files (Toy.world_after Script.num_epochs) !! Script.ckpt_path =
    Some (Script.params (Toy.world_after 2)) /\
  Script.params (Toy.world_after Script.num_epochs) <> Script.params (Toy.world_after 2).
Proof. repeat split; vm_compute; (reflexivity || discriminate). Qed.

(** NaN is below nothing and nothing is below it; [float('inf')] is not
    below itself; the two infinities add to NaN. *)
Example toy_special_values :
  lt_number NaN Inf = false /\
  lt_number (Fin 1) NaN = false /\
  lt_number Inf Inf = false /\
  lt_number NegInf (Fin 0) = true /\
  number_add Inf NegInf = NaN /\
  number_div (number_add (Fin 1) NaN) 2 = NaN.
Proof. split; [reflexivity|]. repeat (split; [reflexivity|]). reflexivity. Qed.

(** With every validation loss NaN, or every one [float('inf')], the five
    epochs write nothing and the tracked best stays [float('inf')]. *)
Example toy_no_number_no_checkpoint :
  Toy.epoch_loop_with Toy.nan_loss Script.num_epochs Toy.world0 =
    (Ok (Script.mkLoopVars Inf (Some NaN)),
     snd (Toy.epoch_loop_with Toy.nan_loss Script.num_epochs Toy.world0)) /\
  Script.checkpoint_writes
    (snd (Toy.epoch_loop_with Toy.nan_loss Script.num_epochs Toy.world0)) = [] /\
  Script.files (snd (Toy.epoch_loop_with Toy.nan_loss Script.num_epochs Toy.world0))
    !! Script.ckpt_path = None /\
  fst (Toy.epoch_loop_with Toy.inf_loss Script.num_epochs Toy.world0) =
    Ok (Script.mkLoopVars Inf (Some Inf)) /\
  Script.checkpoint_writes
    (snd (Toy.epoch_loop_with Toy.inf_loss Script.num_epochs Toy.world0)) = [].
Proof.
  split; [vm_compute; reflexivity|]. split; [vm_compute; reflexivity|].
  split; [vm_compute; reflexivity|]. split; vm_compute; reflexivity.
Qed.

(** With a loss that is NaN on a large error the first validation loss is
    NaN: the first epoch writes nothing, though no loss precedes it.  The
    second is a number: it is written, though a NaN precedes it, and it
    stays the best through the NaN losses that follow. *)
Example toy_nan_then_number :
  Toy.reduced <$> Toy.earlier_losses_with Toy.diverging_loss Script.num_epochs =
    [NaN; Fin (34481 # 1171875); NaN; NaN; NaN] /\
  Script.checkpoint_writes (snd (Toy.epoch_loop_with Toy.diverging_loss 1 Toy.world0)) = [] /\
  Script.checkpoint_writes
    (snd (Toy.epoch_loop_with Toy.diverging_loss Script.num_epochs Toy.world0)) =
    [EvSaveCheckpoint Script.ckpt_path] /\
  Script.files (snd (Toy.epoch_loop_with Toy.diverging_loss Script.num_epochs Toy.world0))
    !! Script.ckpt_path = Some (Script.params (Toy.world_after 2)).
Proof.
  split; [vm_compute; reflexivity|]. split; [vm_compute; reflexivity|].
  split; vm_compute; reflexivity.
Qed.

Example toy_pad_and_truncate :
  DataPrep.PadTransform 5 0 [1; 2; 3] = [1; 2; 3; 0; 0] /\
  DataPrep.PadTransform 2 0 [1; 2; 3] = [1; 2].
Proof. split; reflexivity. Qed.

Example toy_construct :
  Net.construct nat Toy.embedding_call Toy.lstm_call Toy.dense_call
    (Net.model nat Toy._embed_dim 100) Toy.inputs = Ok [[0; 0]; [0; 0]]%Q.
Proof. vm_compute. reflexivity. Qed.

(** A single unidirectional layer has one hidden state: [hidden[-2]] is out
    of range. *)
Example toy_construct_one_state :
  Net.construct nat Toy.embedding_call Toy.lstm_call Toy.dense_call
    (Net.RNN_init nat Toy._embed_dim 100 4 3 1 false) [[1; 2]; [3; 4]] =
  Raise IndexError.
Proof. vm_compute. reflexivity. Qed.

(** A stack of no layers is rejected by the LSTM, and [construct] raises
    what the LSTM raised. *)
Example toy_construct_no_layer :
  Net.construct nat Toy.embedding_call Toy.lstm_call Toy.dense_call
    (Net.RNN_init nat Toy._embed_dim 100 4 3 0 true) [[1; 2]; [3; 4]] =
  Raise ValueError.
Proof. vm_compute. reflexivity. Qed.

Example toy_contains :
  WeightInit.contains "bias" "rnn.cell_list.0.bias_ih" = true /\
  WeightInit.contains "weight" "bias_hh_l0" = false /\
  WeightInit.contains "bias" "bia" = false.
Proof. repeat split. Qed.

(** The toy model after [model.apply(initialize_weights)]: the embedding
    table as loaded, LSTM weights orthogonal, every bias zero, the dense
    weight Xavier-normal. *)
Example toy_initialize_weights :
  (fun param =>
     WeightInit.data <$>
       WeightInit.apply WeightInit.initialize_weights Toy.cells Toy.store0 !! param)
    <$> seq 0 8 =
  [Some (WeightInit.Given "glove");
   Some (WeightInit.initializer WeightInit.orthogonal [1024; 100] "float32");
   Some (WeightInit.initializer WeightInit.orthogonal [1024; 256] "float32");
   Some (WeightInit.initializer WeightInit.zeros [1024] "float32");
   Some (WeightInit.initializer WeightInit.zeros [1024] "float32");
   Some (WeightInit.initializer WeightInit.xavier_normal [2; 512] "float32");
   Some (WeightInit.initializer WeightInit.zeros [2] "float32");
   None].
Proof. vm_compute. reflexivity. Qed.

(** A name with both ['bias'] and ['weight'] in it counts as a bias. *)
Example toy_initialize_bias_first :
  WeightInit.initialize_weights (WeightInit.StaticLSTM [("weight_bias", 1)]) Toy.store0 !! 1 =
  Some (WeightInit.mkParam [1024; 100] "float32"
          (WeightInit.initializer WeightInit.zeros [1024; 100] "float32")).
Proof. vm_compute. reflexivity. Qed.

(** ** Instances of the theorems *)

(** Three validation batches, losses 1, 9 and 1/4: the run returns their
    sum over three. *)
Lemma evaluate_returns_mean_loss_witness :
  Toy.valid_data <> [] /\
  fst (Toy.evaluate Toy.valid_data Toy.loss_fn 0 Toy.world0) =
    Ok (Fin (Qsum [1; 9; 1 # 4] / 3)%Q).
Proof.
  assert (Hne : Toy.valid_data <> []) by discriminate.
  split; [exact Hne|].
  destruct (evaluate_returns_mean_loss Toy.net Toy.accuracy_fn Toy.astype_int32
              Toy.valid_data Toy.loss_fn 0 Toy.world0 Hne) as (_ & _ & Hfinite).
  apply (Hfinite [1; 9; 1 # 4]%Q). reflexivity.
Defined.

(** The toy network adds noise from the random state in training mode only;
    two worlds with equal parameters, in different modes and random states,
    evaluate to the same loss, and so does a second run. *)
Lemma evaluate_deterministic_witness :
  Script.dropout_off_in_inference Toy.net /\
  fst (Toy.evaluate Toy.valid_data Toy.loss_fn 0 Toy.world0) =
    fst (Toy.evaluate Toy.valid_data Toy.loss_fn 1 Toy.world1) /\
  fst (Toy.evaluate Toy.valid_data Toy.loss_fn 1
         (snd (Toy.evaluate Toy.valid_data Toy.loss_fn 0 Toy.world0))) =
    fst (Toy.evaluate Toy.valid_data Toy.loss_fn 0 Toy.world0).
Proof.
  split; [exact toy_dropout_off|].
  destruct (evaluate_deterministic Toy.net Toy.accuracy_fn Toy.astype_int32
              Toy.valid_data Toy.loss_fn 0 1 Toy.world0 Toy.world1 toy_dropout_off)
    as [Hgen Hnext].
  split; [apply Hgen; reflexivity | exact Hnext].
Defined.

(** A three-token sequence padded to 256. *)
Lemma pad_op_pads_short_witness :
  length [5; 3; 8] < DataPrep.max_length /\
  length (DataPrep.pad_op Toy.vocab [5; 3; 8]) = 256 /\
  take 3 (DataPrep.pad_op Toy.vocab [5; 3; 8]) = [5; 3; 8] /\
  DataPrep.pad_op Toy.vocab [5; 3; 8] !! 255 = Some 1.
Proof.
  assert (Hshort : length [5; 3; 8] < DataPrep.max_length)
    by (unfold DataPrep.max_length; simpl; lia).
  split; [exact Hshort|].
  destruct (pad_op_pads_short Toy.vocab [5; 3; 8] Hshort) as (_ & Hlen & Htake & _ & Hpad).
  split; [exact Hlen|]. split; [exact Htake|].
  apply Hpad. unfold DataPrep.max_length. simpl. lia.
Defined.

(** A batch of two padded sequences through the toy layers. *)
Lemma construct_logits_shape_witness :
  Net.has_shape2 2 DataPrep.max_length Toy.inputs /\
  exists logits,
    Net.construct nat Toy.embedding_call Toy.lstm_call Toy.dense_call
      (Net.model nat Toy._embed_dim 100) Toy.inputs = Ok logits /\
    Net.has_shape2 2 2 logits.
Proof.
  assert (Hin : Net.has_shape2 2 DataPrep.max_length Toy.inputs).
  { split; [reflexivity|]. repeat constructor; apply length_replicate. }
  split; [exact Hin|].
  destruct (construct_logits_shape nat Toy._embed_dim Toy.embedding_call Toy.lstm_call
              Toy.dense_call 100 Toy.inputs 2
              toy_embedding_contract toy_lstm_contract toy_dense_contract Hin)
    as (out & hidden & cell & h_fwd & h_bwd & logits & _ & _ & _ & _ & _ & Hrun & Hshape & _).
  exists logits. split; [exact Hrun | exact Hshape].
Defined.

(** The notebook's five epochs on the toy data: the validation losses fall
    over the first two epochs and rise in the third, which writes nothing. *)
Lemma checkpoint_iff_improvement_witness :
  Toy.epoch_loop Script.num_epochs Toy.world0 =
    (Ok (Toy.vars_after Script.num_epochs), Toy.world_after Script.num_epochs) /\
  2 < Script.num_epochs /\
  exists v,
    Toy.valid_loss_of_epoch 2 = Some v /\
    (Script.checkpoint_writes (Toy.world_after 3) =
       Script.checkpoint_writes (Toy.world_after 2) ++ [EvSaveCheckpoint Script.ckpt_path]
     <-> lt_number v Inf = true /\
         forall u, u ∈ Toy.earlier_losses 2 -> u <> NaN -> lt_number v u = true).
Proof.
  assert (Hend : Toy.epoch_loop Script.num_epochs Toy.world0 =
                 (Ok (Toy.vars_after Script.num_epochs), Toy.world_after Script.num_epochs))
    by (vm_compute; reflexivity).
  assert (Hlt : 2 < Script.num_epochs) by (unfold Script.num_epochs; lia).
  split; [exact Hend|]. split; [exact Hlt|].
  destruct (checkpoint_iff_improvement Toy.net Toy.loss_fn Toy.backward Toy.adam
              Toy.accuracy_fn Toy.astype_int32 Toy.train_data Toy.valid_data
              Toy.world0 Script.num_epochs 2
              (Toy.vars_after Script.num_epochs) (Toy.world_after Script.num_epochs)
              Hend Hlt)
    as (vars & w & vars' & w' & v & w1 & H2 & H3 & Hv & _ & _ & _ & _ & _ & Hiff & _ & _).
  exists v. split; [exact Hv|].
  unfold Toy.world_after. rewrite H2, H3. exact Hiff.
Defined.

(** ** Instances of the further properties *)

Lemma evaluate_reports_its_result_witness :
  Toy.valid_data <> [] /\
  fst (Toy.evaluate Toy.valid_data Toy.loss_fn 0 Toy.world0) = Ok (Fin (41 # 12)) /\
  last_reported_loss
    (Script.trace (snd (Toy.evaluate Toy.valid_data Toy.loss_fn 0 Toy.world0))) =
    Some (Fin (41 # 12)).
Proof.
  assert (Hne : Toy.valid_data <> []) by discriminate.
  split; [exact Hne|].
  destruct (evaluate_reports_its_result Toy.net Toy.accuracy_fn Toy.astype_int32
              Toy.valid_data Toy.loss_fn 0 Toy.world0 Hne) as (v & Hv & Hlast).
  assert (Hval : fst (Toy.evaluate Toy.valid_data Toy.loss_fn 0 Toy.world0) =
                 Ok (Fin (41 # 12)))
    by reflexivity.
  split; [exact Hval|].
  rewrite Hlast. rewrite Hval in Hv. injection Hv as <-. reflexivity.
Defined.

(** On the toy data a loss improves on [float('inf')], so the run ends in
    the second case: the file holds the parameters of the best epoch. *)
Lemma checkpoint_holds_best_epoch_witness :
  Toy.epoch_loop Script.num_epochs Toy.world0 =
    (Ok (Toy.vars_after Script.num_epochs), Toy.world_after Script.num_epochs) /\
  exists k b p,
    k < Script.num_epochs /\
    Toy.valid_loss_of_epoch k = Some b /\
    Script.best_valid_loss (Toy.vars_after Script.num_epochs) = b /\
    Script.files (Toy.world_after Script.num_epochs) !! Script.ckpt_path = Some p.
Proof.
  assert (Hend : Toy.epoch_loop Script.num_epochs Toy.world0 =
                 (Ok (Toy.vars_after Script.num_epochs), Toy.world_after Script.num_epochs))
    by (vm_compute; reflexivity).
  split; [exact Hend|].
  destruct (checkpoint_holds_best_epoch Toy.net Toy.loss_fn Toy.backward Toy.adam
              Toy.accuracy_fn Toy.astype_int32 Toy.train_data Toy.valid_data
              Toy.world0 Script.num_epochs
              (Toy.vars_after Script.num_epochs) (Toy.world_after Script.num_epochs)
              Hend)
    as [(Hnone & _) | (k & b & p & Hk & Hb & Hbest & _ & _ & Hfile & _)].
  - exfalso. vm_compute in Hnone. discriminate Hnone.
  - exists k, b, p. split; [exact Hk|]. split; [exact Hb|]. split; [exact Hbest | exact Hfile].
Defined.

Lemma epoch_loop_writes_one_file_witness :
  "./other.ckpt"%string <> Script.ckpt_path /\
  Script.files (snd (Toy.epoch_loop 2 Toy.world2)) !! "./other.ckpt"%string = Some 3%Q.
Proof.
  assert (Hpath : "./other.ckpt"%string <> Script.ckpt_path) by discriminate.
  split; [exact Hpath|].
  rewrite (epoch_loop_writes_one_file Toy.net Toy.loss_fn Toy.backward Toy.adam
             Toy.accuracy_fn Toy.astype_int32 Toy.train_data Toy.valid_data
             Toy.world2 2 "./other.ckpt" Hpath).
  reflexivity.
Defined.

Lemma best_valid_loss_never_rises_witness :
  Toy.epoch_loop Script.num_epochs Toy.world0 =
    (Ok (Toy.vars_after Script.num_epochs), Toy.world_after Script.num_epochs) /\
  1 <= Script.num_epochs /\
  exists vars w,
    Toy.epoch_loop 1 Toy.world0 = (Ok vars, w) /\
    number_le (Script.best_valid_loss (Toy.vars_after Script.num_epochs))
      (Script.best_valid_loss vars).
Proof.
  assert (Hend : Toy.epoch_loop Script.num_epochs Toy.world0 =
                 (Ok (Toy.vars_after Script.num_epochs), Toy.world_after Script.num_epochs))
    by (vm_compute; reflexivity).
  assert (Hle : 1 <= Script.num_epochs) by (unfold Script.num_epochs; lia).
  split; [exact Hend|]. split; [exact Hle|].
  destruct (best_valid_loss_never_rises Toy.net Toy.loss_fn Toy.backward Toy.adam
              Toy.accuracy_fn Toy.astype_int32 Toy.train_data Toy.valid_data
              Toy.world0 Script.num_epochs 1
              (Toy.vars_after Script.num_epochs) (Toy.world_after Script.num_epochs)
              Hend Hle)
    as (vars & w & Hrun & Hmono & _).
  exists vars, w. split; [exact Hrun | exact Hmono].
Defined.

Lemma epoch_loop_optimizer_steps_witness :
  Toy.epoch_loop Script.num_epochs Toy.world0 =
    (Ok (Toy.vars_after Script.num_epochs), Toy.world_after Script.num_epochs) /\
  Script.optimizer_steps (Toy.world_after Script.num_epochs) = replicate 10 EvOptimizer.
Proof.
  assert (Hend : Toy.epoch_loop Script.num_epochs Toy.world0 =
                 (Ok (Toy.vars_after Script.num_epochs), Toy.world_after Script.num_epochs))
    by (vm_compute; reflexivity).
  split; [exact Hend|].
  exact (epoch_loop_optimizer_steps Toy.net Toy.loss_fn Toy.backward Toy.adam
           Toy.accuracy_fn Toy.astype_int32 Toy.train_data Toy.valid_data
           Toy.world0 Script.num_epochs
           (Toy.vars_after Script.num_epochs) (Toy.world_after Script.num_epochs) Hend).
Defined.

Lemma initialize_weights_keeps_the_rest_witness :
  (0 ∉ concat (WeightInit.targets <$> Toy.cells)) /\
  WeightInit.apply WeightInit.initialize_weights Toy.cells Toy.store0 !! 0 =
    Some (WeightInit.mkParam [400; 100] "float32" (WeightInit.Given "glove")).
Proof.
  assert (Hnot : 0 ∉ concat (WeightInit.targets <$> Toy.cells)).
  { rewrite list_elem_of_In. vm_compute. intuition discriminate. }
  split; [exact Hnot|].
  rewrite (initialize_weights_keeps_the_rest Toy.cells Toy.store0 0 Hnot).
  reflexivity.
Defined.

Lemma initialize_weights_lstm_by_name_witness :
  NoDup (snd <$> Toy.lstm_names) /\
  (("bias_ih_l0"%string, 3) ∈ Toy.lstm_names) /\
  WeightInit.initialize_weights (WeightInit.StaticLSTM Toy.lstm_names) Toy.store0 !! 3 =
    Some (WeightInit.mkParam [1024] "float32"
            (WeightInit.initializer WeightInit.zeros [1024] "float32")).
Proof.
  assert (Hnodup : NoDup (snd <$> Toy.lstm_names)).
  { apply NoDup_ListNoDup. vm_compute. repeat constructor; simpl; intuition discriminate. }
  assert (Hin : ("bias_ih_l0"%string, 3) ∈ Toy.lstm_names).
  { apply list_elem_of_In. vm_compute. auto. }
  split; [exact Hnodup|]. split; [exact Hin|].
  rewrite (initialize_weights_lstm_by_name Toy.lstm_names Toy.store0 "bias_ih_l0" 3
             Hnodup Hin).
  reflexivity.
Defined.

Lemma construct_needs_two_states_witness :
  Net.has_shape2 2 2 [[1; 2]; [3; 4]] /\
  Net.construct nat Toy.embedding_call Toy.lstm_call Toy.dense_call
    (Net.RNN_init nat Toy._embed_dim 100 4 3 1 false) [[1; 2]; [3; 4]] =
  Raise IndexError.
Proof.
  assert (Hin : Net.has_shape2 2 2 [[1; 2]; [3; 4]]).
  { split; [reflexivity|]. repeat constructor. }
  split; [exact Hin|].
  assert (Hlen : 1 <= 2) by lia.
  destruct (construct_needs_two_states nat Toy._embed_dim Toy.embedding_call Toy.lstm_call
              Toy.dense_call 100 4 3 1 false [[1; 2]; [3; 4]] 2 2
              toy_embedding_contract toy_lstm_contract toy_dense_contract Hin Hlen)
    as (_ & Hone & _).
  apply Hone. reflexivity.
Defined.
